(** * AWD-LSTM training script ([main.py]): a shallow embedding

    The script is a straight-line program around three loops (epochs,
    training windows, evaluation windows).  It is embedded as a program in a
    state-and-exception monad over a record [world] that holds every object
    the script mutates: the optimizer's learning rate, the model, the
    0-dimensional loss tensors (a small heap, because [loss = raw_loss]
    makes two names for one tensor), the Python variables of the scheduler,
    the three output files, and a trace of the calls made on the model and
    on the optimizer.

    Floating-point arithmetic is not interpreted: the float operations are
    the methods of a class [FloatOps], so every theorem holds for any
    interpretation of them (IEEE doubles included).  The classes of
    [layers.py] are not part of the sources; the calls the script makes on
    the model are the methods of a class [Torch]. *)

From Stdlib Require Import ZArith List Bool Lia QArith.
From stdpp Require Import base list strings gmap.
Import ListNotations.

Local Open Scope Z_scope.

(** ** Numbers *)

(** Python floats and the values of 0-dimensional tensors. *)
Class FloatOps (F : Type) := {
  fadd : F -> F -> F;
  fsub : F -> F -> F;
  fmul : F -> F -> F;
  fdiv : F -> F -> F;
  flt : F -> F -> bool;          (* [a < b] *)
  fis_zero : F -> bool;          (* [a == 0], the test behind ZeroDivisionError *)
  of_int : Z -> F;               (* int to float conversion *)
  int_truediv : Z -> Z -> F;     (* [a / b] on two Python ints, [b] non zero *)
  finf : F;                      (* [np.inf] *)
  of_int_overflows : Z -> bool;  (* the int is too large to convert to float *)
  int_truediv_overflows : Z -> Z -> bool
                                 (* [a / b] on two ints is too large for a float *)
}.

(** ** Exceptions and the program monad *)

Inductive exn :=
| KeyboardInterrupt
| ZeroDivisionError
| IndexError
| ValueError
| OverflowError
| ConfigurationError.

Definition exn_eqb (a b : exn) : bool :=
  match a, b with
  | KeyboardInterrupt, KeyboardInterrupt
  | ZeroDivisionError, ZeroDivisionError
  | IndexError, IndexError
  | ValueError, ValueError
  | OverflowError, OverflowError
  | ConfigurationError, ConfigurationError => true
  | _, _ => false
  end.

Inductive result (A : Type) :=
| Ok (a : A)
| Raise (e : exn).
Arguments Ok {A} a.
Arguments Raise {A} e.

Section Tensors.
Context {F : Type} `{FloatOps F}.

(** An activation tensor of shape (time, batch, features): one list per
    time step, holding that step's batch*features values. *)
Definition Tensor := list (list F).

Definition fsum (l : list F) : F := fold_left fadd l (of_int 0).

(** [t.pow(2)] *)
Definition tpow2 (t : Tensor) : Tensor := map (map (fun v => fmul v v)) t.

(** [t.mean()]: the sum of all entries over their number. *)
Definition tmean (t : Tensor) : F :=
  fdiv (fsum (concat t)) (of_int (Z.of_nat (length (concat t)))).

Fixpoint zip_sub (a b : list F) : list F :=
  match a, b with
  | x :: a', y :: b' => fsub x y :: zip_sub a' b'
  | _, _ => []
  end.

(** [a - b] on two tensors of the same shape. *)
Fixpoint tsub (a b : Tensor) : Tensor :=
  match a, b with
  | x :: a', y :: b' => zip_sub x y :: tsub a' b'
  | _, _ => []
  end.

(** [t[1:]] and [t[:-1]] along the time dimension. *)
Definition tail_steps (t : Tensor) : Tensor := tl t.
Definition init_steps (t : Tensor) : Tensor := removelast t.

(** [l[-1]] on a Python list: IndexError when the list is empty. *)
Definition py_last {A} (l : list A) : result A :=
  match last l with
  | Some a => Ok a
  | None => Raise IndexError
  end.

(** The two penalties as the training loop writes them (lines 127, 128),
    before the multiplication by alpha and beta. *)
Definition ar_term (dropped : Tensor) : F := tmean (tpow2 dropped).
Definition tar_term (raw : Tensor) : F :=
  tmean (tpow2 (tsub (tail_steps raw) (init_steps raw))).

(** The same two quantities as the specification words them:
    the mean of the squares of the entries, and the mean, over the time
    steps [t >= 1], of the squared differences [raw[t] - raw[t-1]]. *)
Definition squares (l : list F) : list F := map (fun v => fmul v v) l.

Definition mean_of (l : list F) : F :=
  fdiv (fsum l) (of_int (Z.of_nat (length l))).

Definition mean_of_squares (t : Tensor) : F :=
  mean_of (squares (concat t)).

Definition step_diff (raw : Tensor) (t : nat) : list F :=
  zip_sub (nth t raw []) (nth (t - 1)%nat raw []).

Definition consecutive_diffs (raw : Tensor) : list F :=
  flat_map (step_diff raw) (seq 1 (length raw - 1)%nat).

Definition mean_sq_consecutive_diff (raw : Tensor) : F :=
  mean_of (squares (consecutive_diffs raw)).

End Tensors.

(** ** The objects of the script *)

(** The command line (lines 18-52), the options the modelled code reads.
    [--lr] is declared with [type=int]. *)
Record args (F : Type) := {
  bs : Z;
  eval_bs : Z;
  bptt : Z;
  use_var_bptt : bool;
  emb_dim : Z;
  hidden_dim : Z;
  num_layers : Z;
  lr : Z;
  anneal_factor : F;
  tie_weights : bool;
  epochs : Z;
  clip : F;
  alpha : F;
  beta : F
}.
Arguments bs {F} _.
Arguments eval_bs {F} _.
Arguments bptt {F} _.
Arguments use_var_bptt {F} _.
Arguments emb_dim {F} _.
Arguments hidden_dim {F} _.
Arguments num_layers {F} _.
Arguments lr {F} _.
Arguments anneal_factor {F} _.
Arguments tie_weights {F} _.
Arguments epochs {F} _.
Arguments clip {F} _.
Arguments alpha {F} _.
Arguments beta {F} _.

(** ** Model construction (lines 81-87) *)

(** The keyword arguments [main.py] gives to [AWDLSTMEncoder] and to
    [DropoutLinearDecoder] (the dropout rates, which play no part in the
    dimensions, are left out). *)
Record encoder_args := {
  enc_vocab_sz : Z;
  enc_emb_dim : Z;
  enc_hidden_dim : Z;
  enc_num_layers : Z;
  enc_tie_weights : bool
}.

Record decoder_args := {
  dec_hidden_dim : Z;
  dec_vocab_sz : Z
}.

(** Shapes of the embedding table and of the decoder's linear map. *)
Definition embedding_shape (e : encoder_args) : Z * Z :=
  (enc_vocab_sz e, enc_emb_dim e).

Definition decoder_weight_shape (d : decoder_args) : Z * Z :=
  (dec_vocab_sz d, dec_hidden_dim d).

Definition shape_eqb (s1 s2 : Z * Z) : bool :=
  (fst s1 =? fst s2) && (snd s1 =? snd s2).

(** Lines 82-86: the keyword arguments that [main.py] gives to the two
    constructors.  With weight tying the decoder is given the embedding
    size as its input size (line 85). *)
Definition encoder_args_of {F} (a : args F) (vocab_sz : Z) : encoder_args :=
  {| enc_vocab_sz := vocab_sz;
     enc_emb_dim := emb_dim a;
     enc_hidden_dim := hidden_dim a;
     enc_num_layers := num_layers a;
     enc_tie_weights := tie_weights a |}.

Definition decoder_args_of {F} (a : args F) (vocab_sz : Z) : decoder_args :=
  {| dec_hidden_dim := if tie_weights a then emb_dim a else hidden_dim a;
     dec_vocab_sz := vocab_sz |}.

(** The three constructors are in [layers.py], which is not under src/:
    each of them returns or raises, and what it rejects is not known
    here. *)
Record layers := {
  AWDLSTMEncoder : encoder_args -> result unit;
  DropoutLinearDecoder : decoder_args -> result unit;
  RNNModel : encoder_args -> decoder_args -> bool -> result unit
}.

(** Lines 82-87: the encoder, then the decoder, then the model; an
    exception of a constructor is not caught. *)
Definition construct_model {F} (L : layers) (a : args F) (vocab_sz : Z)
  : result (encoder_args * decoder_args) :=
  let encoder := encoder_args_of a vocab_sz in
  let decoder := decoder_args_of a vocab_sz in
  match AWDLSTMEncoder L encoder with
  | Raise e => Raise e
  | Ok _ =>
      match DropoutLinearDecoder L decoder with
      | Raise e => Raise e
      | Ok _ =>
          match RNNModel L encoder decoder (tie_weights a) with
          | Raise e => Raise e
          | Ok _ => Ok (encoder, decoder)
          end
      end
  end.

(** Modelled from the spec: the specification requires that, when weight
    tying is enabled, the embedding and decoder weight matrices have
    identical dimensions, and says nothing else of what the constructors
    reject: [RNNModel] rejects a tied pair of matrices of different
    shapes. *)
Definition spec_layers : layers :=
  {| AWDLSTMEncoder := fun _ => Ok tt;
     DropoutLinearDecoder := fun _ => Ok tt;
     RNNModel := fun e d tie =>
       if tie && negb (shape_eqb (embedding_shape e) (decoder_weight_shape d))
       then Raise ConfigurationError
       else Ok tt |}.

(** The property as the specification words it: weight tying with an
    embedding size different from the hidden size is a configuration
    error, on which the construction of the model fails. *)
Definition rejects_tied_mismatch {F} (L : layers) (a : args F) (vocab : Z)
  : Prop :=
  tie_weights a = true -> emb_dim a <> hidden_dim a ->
  exists e, construct_model L a vocab = Raise e.

(** What [model(x, return_states=True)] returns (line 122). *)
Record states (F Out Hidden : Type) := {
  st_out : Out;
  st_hidden : Hidden;
  st_raw_out : list (list (list F));
  st_dropped_out : list (list (list F))
}.
Arguments st_out {F Out Hidden} _.
Arguments st_hidden {F Out Hidden} _.
Arguments st_raw_out {F Out Hidden} _.
Arguments st_dropped_out {F Out Hidden} _.

(** The calls of the script on the model, the loss and the optimizer.
    [Mdl] is the whole [RNNModel] object with what autograd attaches to it:
    parameters, hidden state, mode, gradient buffers, the graph of the
    current window, and the random source of the dropout masks.  A window
    is a list of rows of the batchified stream.  [backward] is given the
    value of the loss tensor it is called on. *)
Class Torch (F Row Out Hidden Mdl : Type) := {
  model_init : encoder_args * decoder_args -> Mdl;   (* the built [RNNModel] *)
  model_train : Mdl -> Mdl;                      (* [model.train()] *)
  model_eval : Mdl -> Mdl;                       (* [model.eval()] *)
  model_reset_hidden : Mdl -> Mdl;               (* [model.reset_hidden()] *)
  model_call_states : Mdl -> list Row -> Mdl * states F Out Hidden;
  model_call : Mdl -> list Row -> Mdl * Out;     (* [model(x)] under [no_grad] *)
  criterion : Out -> list Row -> F;              (* on [out.view(-1, vocab_sz)] *)
  zero_grad : Mdl -> Mdl;                        (* [optimizer.zero_grad()] *)
  backward : Mdl -> F -> Mdl;                    (* [loss.backward()] *)
  clip_grad_norm : Mdl -> F -> Mdl;
  sgd_step : Mdl -> F -> Mdl                     (* [optimizer.step()] at a rate *)
}.

(** The calls the script makes, in the order it makes them. *)
Inductive event (F Row : Type) :=
| EModelTrain
| EModelEval
| EResetHidden
| EForward (x : list Row) (return_states grad_enabled : bool)
| EZeroGrad
| EBackward (loss : F)
| EClipGrad (max_norm : F)
| EOptStep (rate : F)
| ESetLR (rate : F)
| ESaveCheckpoint (epoch : Z).
Arguments EModelTrain {F Row}.
Arguments EModelEval {F Row}.
Arguments EResetHidden {F Row}.
Arguments EForward {F Row} x return_states grad_enabled.
Arguments EZeroGrad {F Row}.
Arguments EBackward {F Row} loss.
Arguments EClipGrad {F Row} max_norm.
Arguments EOptStep {F Row} rate.
Arguments ESetLR {F Row} rate.
Arguments ESaveCheckpoint {F Row} epoch.

(** Everything the script mutates. *)
Record world (F Row Mdl : Type) := {
  opt_lr : F;                      (* [optimizer.param_groups[0]['lr']] *)
  mdl : Mdl;
  heap : list F;                   (* 0-dim tensors; a reference is an index *)
  best_loss : F;
  best_epoch : Z;
  train_losses : list F;
  valid_losses : list F;
  ckpt_file : option Mdl;          (* [{path}/{output}.pth] *)
  csv_file : option (list (F * F));      (* [{path}/{output}.csv] *)
  txt_file : option (F * Z * F);   (* best loss, best epoch, test loss *)
  trace : list (event F Row);
  sigint : option nat              (* interruptible points left before Ctrl-C *)
}.
Arguments opt_lr {F Row Mdl} _.
Arguments mdl {F Row Mdl} _.
Arguments heap {F Row Mdl} _.
Arguments best_loss {F Row Mdl} _.
Arguments best_epoch {F Row Mdl} _.
Arguments train_losses {F Row Mdl} _.
Arguments valid_losses {F Row Mdl} _.
Arguments ckpt_file {F Row Mdl} _.
Arguments csv_file {F Row Mdl} _.
Arguments txt_file {F Row Mdl} _.
Arguments trace {F Row Mdl} _.
Arguments sigint {F Row Mdl} _.

Section Monad.
Context {F Row Out Hidden Mdl : Type}.
Context `{FloatOps F} `{Torch F Row Out Hidden Mdl}.

Abbreviation World := (world F Row Mdl).
Abbreviation Event := (event F Row).
Abbreviation Window := (list Row * list Row)%type.

(** *** Field updates *)

Definition with_lr (v : F) (w : World) : World :=
  {| opt_lr := v; mdl := mdl w; heap := heap w; best_loss := best_loss w;
     best_epoch := best_epoch w; train_losses := train_losses w;
     valid_losses := valid_losses w; ckpt_file := ckpt_file w;
     csv_file := csv_file w; txt_file := txt_file w; trace := trace w;
     sigint := sigint w |}.

Definition with_mdl (m : Mdl) (w : World) : World :=
  {| opt_lr := opt_lr w; mdl := m; heap := heap w; best_loss := best_loss w;
     best_epoch := best_epoch w; train_losses := train_losses w;
     valid_losses := valid_losses w; ckpt_file := ckpt_file w;
     csv_file := csv_file w; txt_file := txt_file w; trace := trace w;
     sigint := sigint w |}.

Definition with_heap (h : list F) (w : World) : World :=
  {| opt_lr := opt_lr w; mdl := mdl w; heap := h; best_loss := best_loss w;
     best_epoch := best_epoch w; train_losses := train_losses w;
     valid_losses := valid_losses w; ckpt_file := ckpt_file w;
     csv_file := csv_file w; txt_file := txt_file w; trace := trace w;
     sigint := sigint w |}.

Definition with_best_loss (l : F) (w : World) : World :=
  {| opt_lr := opt_lr w; mdl := mdl w; heap := heap w; best_loss := l;
     best_epoch := best_epoch w; train_losses := train_losses w;
     valid_losses := valid_losses w; ckpt_file := ckpt_file w;
     csv_file := csv_file w; txt_file := txt_file w; trace := trace w;
     sigint := sigint w |}.

Definition with_best_epoch (e : Z) (w : World) : World :=
  {| opt_lr := opt_lr w; mdl := mdl w; heap := heap w; best_loss := best_loss w;
     best_epoch := e; train_losses := train_losses w;
     valid_losses := valid_losses w; ckpt_file := ckpt_file w;
     csv_file := csv_file w; txt_file := txt_file w; trace := trace w;
     sigint := sigint w |}.

Definition with_train_losses (l : list F) (w : World) : World :=
  {| opt_lr := opt_lr w; mdl := mdl w; heap := heap w; best_loss := best_loss w;
     best_epoch := best_epoch w; train_losses := l;
     valid_losses := valid_losses w; ckpt_file := ckpt_file w;
     csv_file := csv_file w; txt_file := txt_file w; trace := trace w;
     sigint := sigint w |}.

Definition with_valid_losses (l : list F) (w : World) : World :=
  {| opt_lr := opt_lr w; mdl := mdl w; heap := heap w; best_loss := best_loss w;
     best_epoch := best_epoch w; train_losses := train_losses w;
     valid_losses := l; ckpt_file := ckpt_file w;
     csv_file := csv_file w; txt_file := txt_file w; trace := trace w;
     sigint := sigint w |}.

Definition with_ckpt (c : option Mdl) (w : World) : World :=
  {| opt_lr := opt_lr w; mdl := mdl w; heap := heap w; best_loss := best_loss w;
     best_epoch := best_epoch w; train_losses := train_losses w;
     valid_losses := valid_losses w; ckpt_file := c;
     csv_file := csv_file w; txt_file := txt_file w; trace := trace w;
     sigint := sigint w |}.

Definition with_csv (c : option (list (F * F))) (w : World) : World :=
  {| opt_lr := opt_lr w; mdl := mdl w; heap := heap w; best_loss := best_loss w;
     best_epoch := best_epoch w; train_losses := train_losses w;
     valid_losses := valid_losses w; ckpt_file := ckpt_file w;
     csv_file := c; txt_file := txt_file w; trace := trace w;
     sigint := sigint w |}.

Definition with_txt (c : option (F * Z * F)) (w : World) : World :=
  {| opt_lr := opt_lr w; mdl := mdl w; heap := heap w; best_loss := best_loss w;
     best_epoch := best_epoch w; train_losses := train_losses w;
     valid_losses := valid_losses w; ckpt_file := ckpt_file w;
     csv_file := csv_file w; txt_file := c; trace := trace w;
     sigint := sigint w |}.

Definition with_sigint (s : option nat) (w : World) : World :=
  {| opt_lr := opt_lr w; mdl := mdl w; heap := heap w; best_loss := best_loss w;
     best_epoch := best_epoch w; train_losses := train_losses w;
     valid_losses := valid_losses w; ckpt_file := ckpt_file w;
     csv_file := csv_file w; txt_file := txt_file w; trace := trace w;
     sigint := s |}.

Definition emit (e : Event) (w : World) : World :=
  {| opt_lr := opt_lr w; mdl := mdl w; heap := heap w; best_loss := best_loss w;
     best_epoch := best_epoch w; train_losses := train_losses w;
     valid_losses := valid_losses w; ckpt_file := ckpt_file w;
     csv_file := csv_file w; txt_file := txt_file w; trace := trace w ++ [e];
     sigint := sigint w |}.

(** *** The monad: state, exceptions, and a pending Ctrl-C *)

Definition prog (A : Type) : Type := World -> result A * World.

Definition ret {A} (a : A) : prog A := fun w => (Ok a, w).

Definition bind {A B} (m : prog A) (k : A -> prog B) : prog B :=
  fun w => match m w with
           | (Ok a, w') => k a w'
           | (Raise e, w') => (Raise e, w')
           end.

Definition raise {A} (e : exn) : prog A := fun w => (Raise e, w).

Definition lift {A} (r : result A) : prog A := fun w => (r, w).

Definition act (f : World -> World) : prog unit := fun w => (Ok tt, f w).

Definition read {A} (f : World -> A) : prog A := fun w => (Ok (f w), w).

(** An interruptible point: between two statements of the script the
    pending Ctrl-C, when its time has come, raises KeyboardInterrupt. *)
Definition tick : prog unit :=
  fun w => match sigint w with
           | Some O => (Raise KeyboardInterrupt, with_sigint None w)
           | Some (S k) => (Ok tt, with_sigint (Some k) w)
           | None => (Ok tt, w)
           end.

(** [try: body except e: handler] *)
Definition try_except (body : prog unit) (e : exn) (handler : prog unit)
  : prog unit :=
  fun w => match body w with
           | (Raise e', w') =>
               if exn_eqb e' e then handler w' else (Raise e', w')
           | ok => ok
           end.

(** [for a in l: acc = f acc a] *)
Fixpoint for_acc {A B} (f : B -> A -> prog B) (acc : B) (l : list A)
  : prog B :=
  match l with
  | [] => ret acc
  | a :: l' => bind (f acc a) (fun acc' => for_acc f acc' l')
  end.

(** [for a in l: f a] *)
Fixpoint for_each {A} (f : A -> prog unit) (l : list A) : prog unit :=
  match l with
  | [] => ret tt
  | a :: l' => bind (f a) (fun _ => for_each f l')
  end.

End Monad.

Declare Scope prog_scope.
Delimit Scope prog_scope with prog.
Notation "'do' x <- m ;; k" := (bind m (fun x => k))
  (at level 10, x name, m at level 99, k at level 200,
   format "'[v' 'do'  x  <-  m  ;;  '/' k ']'") : prog_scope.

Section Script.
Context {F Row Out Hidden Mdl : Type}.
Context `{FloatOps F} `{Torch F Row Out Hidden Mdl}.
Local Open Scope prog_scope.

Abbreviation World := (world F Row Mdl).
Abbreviation Prog := (prog (F:=F) (Row:=Row) (Mdl:=Mdl)).
Abbreviation Window := (list Row * list Row)%type.

(** *** Python arithmetic that can raise *)

(** [a / b] on two ints: ZeroDivisionError on a zero divisor, then
    OverflowError when the quotient is too large for a float. *)
Definition py_int_truediv (a b : Z) : Prog F :=
  if b =? 0 then raise ZeroDivisionError
  else if int_truediv_overflows a b then raise OverflowError
  else ret (int_truediv a b).

(** [x / n], a float (or the int 0 the accumulator starts from) over an
    int. *)
Definition py_div_int (x : F) (n : Z) : Prog F :=
  if n =? 0 then raise ZeroDivisionError else ret (fdiv x (of_int n)).

(** [x / d], over a float. *)
Definition py_div_float (x d : F) : Prog F :=
  if fis_zero d then raise ZeroDivisionError else ret (fdiv x d).

(** [range(lo, hi)] *)
Definition py_range (lo hi : Z) : list Z :=
  map (fun i => lo + Z.of_nat i) (seq 0 (Z.to_nat (hi - lo))).

(** [len(l)] *)
Definition len {A} (l : list A) : Z := Z.of_nat (length l).

(** *** 0-dimensional tensors

    A tensor name is a reference into [heap]; [loss = raw_loss] copies the
    reference, and [loss += v] on a tensor is the in-place [add_]. *)

Definition new_tensor (v : F) : Prog nat :=
  fun w => (Ok (length (heap w)), with_heap (heap w ++ [v]) w).

Definition tensor_iadd (r : nat) (v : F) : Prog unit :=
  act (fun w => with_heap (alter (fun u => fadd u v) r (heap w)) w).

(** The value a name refers to (a name the script holds is always
    allocated: the default is never read). *)
Definition tensor_value (r : nat) (w : World) : F :=
  default (of_int 0) (heap w !! r).

(** [t.item()] *)
Definition tensor_item (r : nat) : Prog F := read (tensor_value r).

(** *** Calls on the model and on the optimizer *)

Definition set_lr (v : F) : Prog unit :=
  act (fun w => emit (ESetLR v) (with_lr v w)).

Definition call_train : Prog unit :=
  act (fun w => emit EModelTrain (with_mdl (model_train (mdl w)) w)).

Definition call_eval : Prog unit :=
  act (fun w => emit EModelEval (with_mdl (model_eval (mdl w)) w)).

Definition call_reset_hidden : Prog unit :=
  act (fun w => emit EResetHidden (with_mdl (model_reset_hidden (mdl w)) w)).

Definition call_model_states (x : list Row) : Prog (states F Out Hidden) :=
  fun w => let r := model_call_states (mdl w) x in
           (Ok (snd r), emit (EForward x true true) (with_mdl (fst r) w)).

Definition call_model_no_grad (x : list Row) : Prog Out :=
  fun w => let r := model_call (mdl w) x in
           (Ok (snd r), emit (EForward x false false) (with_mdl (fst r) w)).

Definition call_zero_grad : Prog unit :=
  act (fun w => emit EZeroGrad (with_mdl (zero_grad (mdl w)) w)).

Definition call_backward (loss : nat) : Prog unit :=
  act (fun w => emit (EBackward (tensor_value loss w))
                     (with_mdl (backward (mdl w) (tensor_value loss w)) w)).

Definition call_clip (c : F) : Prog unit :=
  act (fun w => emit (EClipGrad c) (with_mdl (clip_grad_norm (mdl w) c) w)).

Definition call_step : Prog unit :=
  act (fun w => emit (EOptStep (opt_lr w))
                     (with_mdl (sgd_step (mdl w) (opt_lr w)) w)).

(** *** The training loop (lines 105-171) *)

Variable a : args F.

(** The body of [for batch in tqdm(train_loader)], lines 111-139; the
    value is [raw_loss.item()], which line 139 adds to [train_loss]. *)
Definition train_batch (batch : Window) : Prog F :=
  do _ <- tick ;;
  do _ <- (if use_var_bptt a                                 (* 114 *)
           then do v <- py_int_truediv (lr a * len (fst batch)) (bptt a) ;;
                set_lr v                                     (* 116 *)
           else ret tt) ;;
  do _ <- tick ;;
  do st <- call_model_states (fst batch) ;;                  (* 122 *)
  do _ <- tick ;;
  do raw_loss <- new_tensor (criterion (st_out st) (snd batch)) ;;  (* 123 *)
  do _ <- tick ;;
  do loss <- ret raw_loss ;;                                 (* 126 *)
  do _ <- tick ;;
  do d <- lift (py_last (st_dropped_out st)) ;;
  do _ <- tensor_iadd loss (fmul (alpha a) (ar_term d)) ;;   (* 127 *)
  do _ <- tick ;;
  do r <- lift (py_last (st_raw_out st)) ;;
  do _ <- tensor_iadd loss (fmul (beta a) (tar_term r)) ;;   (* 128 *)
  do _ <- tick ;;
  do _ <- call_zero_grad ;;                                  (* 130 *)
  do _ <- tick ;;
  do _ <- call_backward loss ;;                              (* 131 *)
  do _ <- tick ;;
  do _ <- call_clip (clip a) ;;                              (* 132 *)
  do _ <- tick ;;
  do _ <- call_step ;;                                       (* 133 *)
  do _ <- tick ;;
  do _ <- (if use_var_bptt a                                 (* 136 *)
           then set_lr (of_int (lr a))                       (* 137 *)
           else ret tt) ;;
  do _ <- tick ;;
  tensor_item raw_loss.                                      (* 139 *)

(** Lines 107-141; the value is the epoch's [train_loss]. *)
Definition train_pass (train_loader : list Window) : Prog F :=
  do _ <- tick ;;
  do _ <- call_train ;;                                      (* 107 *)
  do _ <- tick ;;
  do _ <- call_reset_hidden ;;                               (* 108 *)
  do _ <- tick ;;
  do total <- for_acc (fun train_loss batch =>               (* 109, 110 *)
                         do v <- train_batch batch ;;
                         ret (fadd train_loss v))            (* 139 *)
                      (of_int 0) train_loader ;;
  do _ <- tick ;;
  do train_loss <- py_div_int total (len train_loader) ;;    (* 140 *)
  do _ <- tick ;;
  do _ <- act (fun w => with_train_losses (train_losses w ++ [train_loss]) w) ;;
  ret train_loss.                                            (* 141 *)

(** The body of the two evaluation loops, lines 147-155 and 182-190. *)
Definition eval_batch (batch : Window) : Prog F :=
  do _ <- tick ;;
  do out <- call_model_no_grad (fst batch) ;;                (* 152 *)
  do _ <- tick ;;
  do loss <- new_tensor (criterion out (snd batch)) ;;       (* 153 *)
  do _ <- tick ;;
  tensor_item loss.                                          (* 155 *)

(** Lines 143-156 on the validation loader, and the same statements on
    the test loader at lines 178-191. *)
Definition eval_pass (loader : list Window) : Prog F :=
  do _ <- tick ;;
  do _ <- call_eval ;;                                       (* 143 *)
  do _ <- tick ;;
  do _ <- call_reset_hidden ;;                               (* 144 *)
  do _ <- tick ;;
  do total <- for_acc (fun acc batch =>                      (* 145, 146 *)
                         do v <- eval_batch batch ;;
                         ret (fadd acc v))                   (* 155 *)
                      (of_int 0) loader ;;
  do _ <- tick ;;
  py_div_int total (len loader).                             (* 156 *)

(** The rate where a float is needed of it (the operand of line 168, the
    [{:.4f}] of line 171).  The optimizer is built with the int [args.lr];
    line 137 writes that int back, and in fixed-length mode the rate stays
    that int until line 168 first replaces it by a float quotient.  An
    [args.lr] too large for a float therefore fails its first conversion
    with OverflowError, and the rate is never a float without having been
    converted. *)
Definition int_rate_to_float : Prog unit :=
  if of_int_overflows (lr a) then raise OverflowError else ret tt.

(** Lines 160-168. *)
Definition save_or_anneal (e : Z) (valid_loss : F) : Prog unit :=
  do best <- read best_loss ;;
  if flt valid_loss best then                                (* 160 *)
    do _ <- act (with_best_loss valid_loss) ;;               (* 161 *)
    do _ <- tick ;;
    do _ <- act (with_best_epoch e) ;;                       (* 162 *)
    do _ <- tick ;;
    act (fun w => emit (ESaveCheckpoint e)
                       (with_ckpt (Some (mdl w)) w))         (* 164, 165 *)
  else if negb (use_var_bptt a) then                         (* 167 *)
    do cur <- read opt_lr ;;
    do _ <- int_rate_to_float ;;
    do v <- py_div_float cur (anneal_factor a) ;;
    set_lr v                                                 (* 168 *)
  else ret tt.

(** One iteration of [for e in range(1, args.epochs + 1)]. *)
Definition epoch (train_loader valid_loader : list Window) (e : Z)
  : Prog unit :=
  do _ <- train_pass train_loader ;;
  do valid_loss <- eval_pass valid_loader ;;
  do _ <- tick ;;
  do _ <- act (fun w => with_valid_losses (valid_losses w ++ [valid_loss]) w) ;;
  do _ <- tick ;;                                            (* 157 *)
  do _ <- save_or_anneal e valid_loss ;;                     (* 160-168 *)
  do _ <- tick ;;                                            (* 169 *)
  int_rate_to_float.                                         (* 171 *)

Definition epoch_loop (train_loader valid_loader : list Window) : Prog unit :=
  for_each (epoch train_loader valid_loader) (py_range 1 (epochs a + 1)).

(** *** After the loop (lines 173-199) *)

(** [pd.DataFrame(data={'train': l1, 'valid': l2})]: pandas builds one
    row per index and raises ValueError when the two columns differ in
    length. *)
Definition DataFrame (l1 l2 : list F) : result (list (F * F)) :=
  if (length l1 =? length l2)%nat then Ok (combine l1 l2)
  else Raise ValueError.

Definition save_outputs (test_loss : F) : Prog unit :=
  do _ <- tick ;;
  do tl <- read train_losses ;;
  do vl <- read valid_losses ;;
  do df <- lift (DataFrame tl vl) ;;
  do _ <- act (with_csv (Some df)) ;;                        (* 197 *)
  do _ <- tick ;;
  act (fun w => with_txt (Some (best_loss w, best_epoch w, test_loss)) w).

(** Lines 176-199: the test evaluation and the two reports. *)
Definition after_loop (test_loader : list Window) : Prog unit :=
  do test_loss <- eval_pass test_loader ;;                   (* 178-191 *)
  save_outputs test_loss.                                    (* 197-199 *)

(** Lines 105-199. *)
Definition script (train_loader valid_loader test_loader : list Window)
  : Prog unit :=
  do _ <- try_except (epoch_loop train_loader valid_loader)  (* 105 *)
                     KeyboardInterrupt (ret tt) ;;           (* 173 *)
  after_loop test_loader.

(** Lines 93-101: the state the loop starts from, for a constructed
    model [m]; [sig] schedules the user's Ctrl-C. *)
Definition init_world (m : Mdl) (sig : option nat) : World :=
  {| opt_lr := of_int (lr a); mdl := m; heap := [];
     best_loss := finf; best_epoch := 0;
     train_losses := []; valid_losses := [];
     ckpt_file := None; csv_file := None; txt_file := None;
     trace := []; sigint := sig |}.

End Script.

(** ** The batcher and the loaders (lines 76-79) *)

(** [len(l)] and the slice [s[lo:hi]] for [0 <= lo]. *)
Definition slice {A} (s : list A) (lo hi : Z) : list A :=
  take (Z.to_nat (hi - lo)) (drop (Z.to_nat lo) s).

Section Batcher.
Context {A : Type}.

Variable stream : list A.
Variable B : Z.
Variable var : bool.
(** The random source: [draw k] is the length drawn for window [k] (the
    base length or its half, with the jitter added), before clamping. *)
Variable draw : nat -> Z.

(** The remaining stream length at offset [t]: the positions from [t] on
    that still have a successor to serve as their target. *)
Definition remaining (t : Z) : Z := len stream - 1 - t.

(** The minimum window length of the variable mode. *)
Definition min_len : Z := 5.

Definition window_len (t : Z) (k : nat) : Z :=
  Z.min (if var then Z.max min_len (draw k) else B) (remaining t).

Definition window_at (t L : Z) : list A * list A :=
  (slice stream t (t + L), slice stream (t + 1) (t + L + 1)).

(** Standard mode: a last partial window, one shorter than [B], is
    dropped if it is shorter than 2 tokens. *)
Definition dropped (L : Z) : bool :=
  negb var && (L <? B) && (L <? 2).

(** Modelled from the spec: [utils.get_loaders] is not under src/.  The
    specification describes the batcher over a stream and a base length
    [B]: windows are taken in stream order from offset [t = 0]; the length
    [L] of a window is [B] in standard mode and a drawn length clamped to
    at least 5 in variable mode, clamped in both modes to the remaining
    stream length; the window's input is [stream[t : t+L]], its target
    [stream[t+1 : t+L+1]], of equal length; [t] advances by [L]; in
    standard mode the last partial window is dropped if shorter than 2
    tokens.  The batcher ends when no token with a successor remains.
    [fuel] bounds the number of windows: the batcher of the script is a
    loop, which does not end when [L] is not positive. *)
Fixpoint windows_from (fuel : nat) (t : Z) (k : nat)
  : option (list (list A * list A)) :=
  if remaining t <? 1 then Some []
  else if dropped (window_len t k) then Some []
  else match fuel with
       | O => None
       | S fuel' =>
           option_map (cons (window_at t (window_len t k)))
                      (windows_from fuel' (t + window_len t k) (S k))
       end.

(** The number of tokens, besides the last one of the stream, that no
    window taken from offset [t] on has as an input: one in standard mode
    when a single token would be left for the last window, none
    otherwise. *)
Definition lost (t : Z) : Z :=
  if negb var && (2 <=? B) && (1 <=? remaining t)
     && (remaining t mod B =? 1)
  then 1 else 0.

Definition batcher : option (list (list A * list A)) :=
  windows_from (length stream) 0 0.

End Batcher.

Section BatcherSpec.
Context {A : Type}.

(** The windows [ws] are taken from [s] in stream order from offset [t]:
    every input is the next slice of the stream, no longer than what
    remains of it, and every target is the stream one position later, of
    the same length. *)
Fixpoint windows_cover (s : list A) (t : Z) (ws : list (list A * list A))
  : Prop :=
  match ws with
  | [] => True
  | w :: rest =>
      fst w = slice s t (t + len (fst w)) /\
      snd w = slice s (t + 1) (t + len (fst w) + 1) /\
      length (snd w) = length (fst w) /\
      1 <= len (fst w) <= len s - 1 - t /\
      windows_cover s (t + len (fst w)) rest
  end.

(** The property of the batcher as the specification words it: the
    inputs of the windows, concatenated, are the whole stream, and every
    window is at least as long as the minimum length. *)
Definition covers_whole_stream (s : list A) (B : Z) (var : bool)
           (draw : nat -> Z) : Prop :=
  exists ws, batcher s B var draw = Some ws /\
             concat (map fst ws) = s /\
             windows_cover s 0 ws /\
             Forall (fun w => min_len <= len (fst w)) ws.

(** Windows of the base length, but for a shorter last one. *)
Definition base_length_windows (B : Z) (ws : list (list A * list A))
  : Prop :=
  Forall (fun w => len (fst w) = B) (removelast ws) /\
  Forall (fun w => 1 <= len (fst w) <= B) ws.

End BatcherSpec.

(** The three token streams of the corpus and the size of its dictionary
    (lines 63-74). *)
Record corpus (Tok : Type) := {
  c_train : list Tok;
  c_valid : list Tok;
  c_test : list Tok;
  vocab_sz : Z
}.
Arguments c_train {Tok} _.
Arguments c_valid {Tok} _.
Arguments c_test {Tok} _.
Arguments vocab_sz {Tok} _.

(** How a run of [main.py] ends. *)
Inductive outcome (F Row Mdl : Type) :=
| Diverged                                   (* a loader is never built *)
| Rejected (e : exn)                         (* the model is not constructed *)
| Finished (r : result unit) (w : world F Row Mdl).
Arguments Diverged {F Row Mdl}.
Arguments Rejected {F Row Mdl} e.
Arguments Finished {F Row Mdl} r w.

Section Main.
Context {F Tok Row Out Hidden Mdl : Type}.
Context `{FloatOps F} `{Torch F Row Out Hidden Mdl}.

(** Modelled from the spec: [utils.get_loaders] is not under src/, and the
    specification does not say how the flat stream is laid out in [bs]
    columns: [batchify] is that layout, one row per time step. *)
Variable batchify : list Tok -> Z -> list Row.

Definition get_loaders (source : list Tok) (bs bptt : Z)
           (use_var_bptt : bool) (draw : nat -> Z)
  : option (list (list Row * list Row)) :=
  batcher (batchify source bs) bptt use_var_bptt draw.

(** Modelled from the spec: variable-length BPTT is a flag that has to be
    enabled; a call of [get_loaders] without [use_var_bptt] is in standard
    mode. *)
Definition use_var_bptt_default : bool := false.

Variable L : layers.
Variable a : args F.
Variable c : corpus Tok.
Variable draw : nat -> Z.

Definition train_loader :=                                   (* 77 *)
  get_loaders (c_train c) (bs a) (bptt a) (use_var_bptt a) draw.
Definition valid_loader :=                                   (* 78 *)
  get_loaders (c_valid c) (eval_bs a) (bptt a) use_var_bptt_default draw.
Definition test_loader :=                                    (* 79 *)
  get_loaders (c_test c) (eval_bs a) (bptt a) use_var_bptt_default draw.

(** The whole script, lines 76-199. *)
Definition main (sig : option nat) : outcome F Row Mdl :=
  match train_loader, valid_loader, test_loader with
  | Some tl, Some vl, Some sl =>
      match construct_model L a (vocab_sz c) with
      | Raise e => Rejected e
      | Ok built =>
          let r := script a tl vl sl (init_world a (model_init built) sig) in
          Finished (fst r) (snd r)
      end
  | _, _, _ => Diverged
  end.

End Main.

(** ** What one training window does *)

Section Window.
Context {F Row Out Hidden Mdl : Type}.
Context `{FloatOps F} `{Torch F Row Out Hidden Mdl}.
Variable a : args F.

(** The value of the tensor [loss] when [loss.backward()] is called:
    the cross-entropy, then line 127, then line 128. *)
Definition batch_loss (st : states F Out Hidden) (y : list Row)
           (dropped raw : list (list F)) : F :=
  fadd (fadd (criterion (st_out st) y)
             (fmul (alpha a) (ar_term dropped)))
       (fmul (beta a) (tar_term raw)).

(** The learning rate of the optimizer during a window on [x], from the
    rate [cur] before it. *)
Definition window_rate (x : list Row) (cur : F) : F :=
  if use_var_bptt a then int_truediv (lr a * len x) (bptt a) else cur.

(** The calls of one window, for the loss [l] and the rate [rate]. *)
Definition train_batch_events (x : list Row) (l rate : F)
  : list (event F Row) :=
  (if use_var_bptt a then [ESetLR rate] else [])
  ++ [EForward x true true; EZeroGrad; EBackward l;
      EClipGrad (clip a); EOptStep rate]
  ++ (if use_var_bptt a then [ESetLR (of_int (lr a))] else []).

End Window.

(** ** Vocabulary of the specifications *)

Section Vocabulary.
Context {F Row Mdl : Type}.

(** The variables of the scheduler and the three files are the same in
    [w] and [w']. *)
Definition books_eq (w w' : world F Row Mdl) : Prop :=
  best_loss w' = best_loss w /\ best_epoch w' = best_epoch w /\
  train_losses w' = train_losses w /\ valid_losses w' = valid_losses w /\
  ckpt_file w' = ckpt_file w /\ csv_file w' = csv_file w /\
  txt_file w' = txt_file w.

(** The calls made while a window is processed, in either loop. *)
Definition is_window_event (e : event F Row) : bool :=
  match e with
  | EModelTrain | EModelEval | EResetHidden | ESaveCheckpoint _ => false
  | _ => true
  end.

(** What a program run from [w] to [w'], ending with the exception [r]
    if any, did with the pending Ctrl-C: only a pending Ctrl-C raises
    KeyboardInterrupt, and it is delivered once. *)
Definition sig_ok (w : world F Row Mdl) (r : option exn)
           (w' : world F Row Mdl) : Prop :=
  (sigint w = None -> sigint w' = None /\ r <> Some KeyboardInterrupt) /\
  (r = Some KeyboardInterrupt -> sigint w' = None).

End Vocabulary.

(** ** Passes over the data and the hidden state *)

Section Monitor.
Context {F Row : Type}.

(** Where the script is in a pass over a loader: the mode has been set,
    then the hidden state has been reset, then windows are iterated. *)
Inductive phase := Idle | ModeSet | Ready | Iterating.

(** A pass begins with [model.train()] or [model.eval()].  The hidden
    state is reset right after it and at no other time; a forward call
    needs the reset of its pass. *)
Definition pass_step (p : phase) (e : event F Row) : option phase :=
  match e with
  | EModelTrain | EModelEval => Some ModeSet
  | EResetHidden => match p with ModeSet => Some Ready | _ => None end
  | EForward _ _ _ =>
      match p with Ready | Iterating => Some Iterating | _ => None end
  | _ => Some p
  end.

Fixpoint pass_monitor (p : phase) (evs : list (event F Row))
  : option phase :=
  match evs with
  | [] => Some p
  | e :: evs' =>
      match pass_step p e with
      | Some p' => pass_monitor p' evs'
      | None => None
      end
  end.

(** The calls that open a pass. *)
Definition is_pass_event (e : event F Row) : bool :=
  match e with
  | EModelTrain | EModelEval | EResetHidden => true
  | _ => false
  end.

Definition is_no_grad_forward (e : event F Row) : bool :=
  match e with
  | EForward _ false false => true
  | _ => false
  end.

(** The calls of an evaluation pass. *)
Definition is_eval_event (e : event F Row) : bool :=
  match e with
  | EModelEval | EResetHidden | EForward _ false false => true
  | _ => false
  end.

Definition is_checkpoint (e : event F Row) : bool :=
  match e with
  | ESaveCheckpoint _ => true
  | _ => false
  end.

(** The calls that read or write the optimizer's learning rate. *)
Definition is_rate_event (e : event F Row) : bool :=
  match e with
  | ESetLR _ | EOptStep _ => true
  | _ => false
  end.

(** What a pass opened by the call [m] has done when it is cut short:
    nothing, or the opening call, or that call, the reset of the hidden
    state and calls of the windows. *)
Definition pass_prefix (m : event F Row) (evs : list (event F Row))
  : Prop :=
  evs = [] \/ evs = [m] \/
  exists rest, evs = m :: EResetHidden :: rest /\
               forallb is_window_event rest = true.

(** A sequence of calls that respects the discipline of the passes
    wherever it starts. *)
Definition accepted (evs : list (event F Row)) : Prop :=
  forall p, pass_monitor p evs <> None.

(** The values of the losses on which [backward()] was called. *)
Definition backward_losses (evs : list (event F Row)) : list F :=
  flat_map (fun e => match e with EBackward l => [l] | _ => [] end) evs.

(** The four calls that open the two passes of one epoch. *)
Definition epoch_passes : list (event F Row) :=
  [EModelTrain; EResetHidden; EModelEval; EResetHidden].

End Monitor.

Section Evaluation.
Context {F Row Out Hidden Mdl : Type}.
Context `{FloatOps F} `{Torch F Row Out Hidden Mdl}.

(** An evaluation loop as a function: the model after the windows of
    [loader], and the cross-entropy of each window. *)
Fixpoint eval_run (m : Mdl) (loader : list (list Row * list Row))
  : Mdl * list F :=
  match loader with
  | [] => (m, [])
  | b :: rest =>
      let r := model_call m (fst b) in
      let r' := eval_run (fst r) rest in
      (fst r', criterion (snd r) (snd b) :: snd r')
  end.

(** The model an evaluation pass starts its windows from. *)
Definition eval_start (m : Mdl) : Mdl := model_reset_hidden (model_eval m).

Definition eval_forwards (loader : list (list Row * list Row))
  : list (event F Row) :=
  map (fun b => EForward (fst b) false false) loader.

(** The best validation loss of a history: [np.inf], then each loss that
    is strictly lower than the best before it. *)
Definition running_best (vs : list F) : F :=
  fold_left (fun best v => if flt v best then v else best) vs finf.

End Evaluation.

Section TrainingRun.
Context {F Row Out Hidden Mdl : Type}.
Context `{FloatOps F} `{Torch F Row Out Hidden Mdl}.
Variable a : args F.

(** [l[-1]] on a list of layer outputs that is not empty. *)
Definition last_layer (l : list (list (list F))) : list (list F) :=
  default [] (last l).

(** One training window as a function: the model that the window leaves
    (the forward call, then [zero_grad], [backward] on the loss, the
    clipping and the optimizer step at [rate], each on the model the call
    before it returned) and the loss of the window. *)
Definition train_window (rate : F) (m : Mdl) (b : list Row * list Row)
  : Mdl * F :=
  let r := model_call_states m (fst b) in
  let l := batch_loss a (snd r) (snd b)
                      (last_layer (st_dropped_out (snd r)))
                      (last_layer (st_raw_out (snd r))) in
  (sgd_step (clip_grad_norm (backward (zero_grad (fst r)) l) (clip a)) rate,
   l).

(** A training loop as a function: every window starts from the model,
    hidden state included, that the window before it left. *)
Fixpoint train_run (cur : F) (m : Mdl) (loader : list (list Row * list Row))
  : Mdl * list F :=
  match loader with
  | [] => (m, [])
  | b :: rest =>
      let r := train_window (window_rate a (fst b) cur) m b in
      let r' := train_run cur (fst r) rest in
      (fst r', snd r :: snd r')
  end.

(** The model a training pass starts its windows from. *)
Definition train_start (m : Mdl) : Mdl := model_reset_hidden (model_train m).

End TrainingRun.

Section Consistency.
Context {F Row Out Hidden Mdl : Type}.
Context `{FloatOps F} `{Torch F Row Out Hidden Mdl}.
Variable a : args F.

(** The state of the scheduler as the script keeps it from one epoch to
    the next: every train loss has its validation loss, the best loss is
    the running best of the validation history, a best loss other than
    [np.inf] has its checkpoint and its epoch, and in variable-length
    mode the rate is [args.lr]. *)
Definition state_consistent (w : world F Row Mdl) : Prop :=
  length (train_losses w) = length (valid_losses w) /\
  best_loss w = running_best (valid_losses w) /\
  (ckpt_file w = None -> best_loss w = finf /\ best_epoch w = 0) /\
  (use_var_bptt a = true -> opt_lr w = of_int (lr a)).

(** The property as the specification words it: an interrupt of the
    epoch loop does not corrupt the state in memory. *)
Definition interrupt_keeps_state_consistent
           (train_loader valid_loader : list (list Row * list Row))
           (m : Mdl) : Prop :=
  forall sig : option nat,
    let r := epoch_loop a train_loader valid_loader (init_world a m sig) in
    fst r = Raise KeyboardInterrupt -> state_consistent (snd r).

End Consistency.

(** ** Specifications of programs

    [wp m Q E w]: run from [w], the program [m] ends with a value and a
    world in [Q], or raises an exception in a world where [E] holds. *)

Definition wp {F Row Mdl A} (m : prog (F:=F) (Row:=Row) (Mdl:=Mdl) A)
           (Q : A -> world F Row Mdl -> Prop)
           (E : exn -> world F Row Mdl -> Prop)
           (w : world F Row Mdl) : Prop :=
  match m w with
  | (Ok x, w') => Q x w'
  | (Raise e, w') => E e w'
  end.

(** ** A small instance, for examples

    Floats are read as exact rationals, extended with an infinity, and
    an int converts to a float when it is below [2 ^ 1024] in absolute
    value; the model counts the optimizer steps it has taken, and its
    loss decreases with them. *)

Module Demo.

Inductive xq := Fin (q : Q) | Inf.

Definition lift2 (f : Q -> Q -> Q) (v1 v2 : xq) : xq :=
  match v1, v2 with
  | Fin x, Fin y => Fin (Qred (f x y))
  | _, _ => Inf
  end.

Definition xq_lt (v1 v2 : xq) : bool :=
  match v1, v2 with
  | Fin x, Fin y => negb (Qle_bool y x)
  | Fin _, Inf => true
  | Inf, _ => false
  end.

Definition xq_is_zero (v : xq) : bool :=
  match v with
  | Fin x => Qeq_bool x 0
  | Inf => false
  end.

#[global] Instance xq_float : FloatOps xq := {|
  fadd := lift2 Qplus;
  fsub := lift2 Qminus;
  fmul := lift2 Qmult;
  fdiv := lift2 Qdiv;
  flt := xq_lt;
  fis_zero := xq_is_zero;
  of_int := fun z => Fin (inject_Z z);
  int_truediv := fun n d => Fin (Qred (inject_Z n / inject_Z d));
  finf := Inf;
  of_int_overflows := fun z => 2 ^ 1024 <=? Z.abs z;
  int_truediv_overflows := fun n d => 2 ^ 1024 * Z.abs d <=? Z.abs n
|}.

(** Two layers of activations over two time steps; only the second
    layer is the last one. *)
Definition layers_raw : list (list (list xq)) :=
  [ [[Fin 9]; [Fin 9]]; [[Fin 1]; [Fin 3]] ].

Definition layers_dropped : list (list (list xq)) :=
  [ [[Fin 7]; [Fin 7]]; [[Fin 1]; [Fin 1]] ].

(** The model is the number of optimizer steps taken; its cross-entropy
    on any window is [10 - steps]. *)
#[global] Instance counter_model : Torch xq Z Z unit Z := {|
  model_init := fun _ => 0;
  model_train := fun m => m;
  model_eval := fun m => m;
  model_reset_hidden := fun m => m;
  model_call_states := fun m _ =>
    (m, {| st_out := m; st_hidden := tt;
           st_raw_out := layers_raw; st_dropped_out := layers_dropped |});
  model_call := fun m _ => (m, m);
  criterion := fun out _ => Fin (inject_Z (10 - out));
  zero_grad := fun m => m;
  backward := fun m _ => m;
  clip_grad_norm := fun m _ => m;
  sgd_step := fun m _ => m + 1
|}.

(** The default command line, with two epochs, a base window of two
    rows, and weight tying. *)
Definition demo_args (var : bool) : args xq :=
  {| bs := 1; eval_bs := 1; bptt := 2; use_var_bptt := var;
     emb_dim := 400; hidden_dim := 1150; num_layers := 3;
     lr := 30; anneal_factor := Fin 4; tie_weights := true;
     epochs := 2; clip := Fin (1 # 4); alpha := Fin 2; beta := Fin 1 |}.

(** A rate that converts to a float, but not when scaled by four. *)
Definition big_rate_args : args xq :=
  {| bs := 1; eval_bs := 1; bptt := 1; use_var_bptt := true;
     emb_dim := 400; hidden_dim := 1150; num_layers := 3;
     lr := 2 ^ 1023; anneal_factor := Fin 4; tie_weights := true;
     epochs := 2; clip := Fin (1 # 4); alpha := Fin 2; beta := Fin 1 |}.

Definition demo_train : list (list Z * list Z) :=
  [ ([1; 2], [2; 3]); ([3; 4], [4; 5]) ].

Definition demo_valid : list (list Z * list Z) :=
  [ ([6; 7], [7; 8]) ].

Definition demo_test : list (list Z * list Z) :=
  [ ([8; 9], [9; 10]) ].

(** One training window of four rows, twice the base length. *)
Definition demo_long : list (list Z * list Z) :=
  [ ([1; 2; 3; 4], [2; 3; 4; 5]) ].

Definition demo_world (var : bool) (sig : option nat) : world xq Z Z :=
  init_world (demo_args var) 0 sig.

(** A stream of eight tokens and a corpus of three such streams, laid
    out in one column. *)
Definition demo_stream : list Z := [1; 2; 3; 4; 5; 6; 7; 8].

Definition demo_corpus : corpus Z :=
  {| c_train := demo_stream; c_valid := demo_stream;
     c_test := demo_stream; vocab_sz := 50 |}.

Definition one_column (source : list Z) (bs : Z) : list Z := source.

End Demo.

(** ** Whole passes, faults, and the schedule of the rate *)

Section PassCalls.
Context {F Row : Type} `{FloatOps F}.
Variable a : args F.

(** The calls of the windows of a training pass over [loader], for the
    losses [ls] of its windows and the rate [cur] the pass starts from. *)
Fixpoint pass_calls (cur : F) (loader : list (list Row * list Row))
         (ls : list F) : list (event F Row) :=
  match loader, ls with
  | b :: rest, l :: ls' =>
      train_batch_events a (fst b) l (window_rate a (fst b) cur)
      ++ pass_calls cur rest ls'
  | _, _ => []
  end.

(** The inputs of the forward calls, the rates of the optimizer steps, the
    norms of the clippings and the epochs of the checkpoints of a trace. *)
Definition forward_inputs (evs : list (event F Row)) : list (list Row) :=
  flat_map (fun e => match e with EForward x _ _ => [x] | _ => [] end) evs.

Definition step_rates (evs : list (event F Row)) : list F :=
  flat_map (fun e => match e with EOptStep r => [r] | _ => [] end) evs.

Definition clip_norms (evs : list (event F Row)) : list F :=
  flat_map (fun e => match e with EClipGrad c => [c] | _ => [] end) evs.

Definition checkpoint_epochs (evs : list (event F Row)) : list Z :=
  flat_map (fun e => match e with ESaveCheckpoint n => [n] | _ => [] end) evs.

(** Line 168, once. *)
Definition anneal_once (r : F) : F := fdiv r (anneal_factor a).

End PassCalls.

Section Faults.
Context {F Row Out Hidden Mdl : Type}.
Context `{FloatOps F} `{Torch F Row Out Hidden Mdl}.
Variable a : args F.

(** The model returns an empty list of layer outputs on some window. *)
Definition no_layer_output : Prop :=
  exists (m : Mdl) (x : list Row),
    st_dropped_out (snd (model_call_states m x)) = [] \/
    st_raw_out (snd (model_call_states m x)) = [].

(** The scaled rate of line 116 is too large for a float on the window
    of input [x]. *)
Definition rate_overflows (x : list Row) : bool :=
  int_truediv_overflows (lr a * len x) (bptt a).

(** What makes the statements of a training window on [x] raise. *)
Definition window_fault (x : list Row) (e : exn) : Prop :=
  e = KeyboardInterrupt \/
  (e = ZeroDivisionError /\ use_var_bptt a = true /\ bptt a = 0) \/
  (e = OverflowError /\ use_var_bptt a = true /\ bptt a <> 0 /\
   rate_overflows x = true) \/
  (e = IndexError /\ no_layer_output).

(** What makes the epoch loop over two loaders raise, for an [args.lr]
    that converts to a float. *)
Definition loop_fault (train_loader valid_loader : list (list Row * list Row))
           (e : exn) : Prop :=
  e = KeyboardInterrupt \/
  (e = ZeroDivisionError /\
   (train_loader = [] \/ valid_loader = [] \/
    (use_var_bptt a = true /\ bptt a = 0) \/
    (use_var_bptt a = false /\ fis_zero (anneal_factor a) = true))) \/
  (e = OverflowError /\ use_var_bptt a = true /\ bptt a <> 0 /\
   exists b, In b train_loader /\ rate_overflows (fst b) = true) \/
  (e = IndexError /\ no_layer_output).

End Faults.

(** ** The corpus cache (lines 63-72) *)

Section CorpusCache.
Context {C : Type}.

(** [hashlib.md5(path.encode()).hexdigest()] *)
Variable md5_hex : string -> string.

(** [Corpus(path, train, valid, test)], of [data.py], which is not among
    the sources: it returns a corpus or raises. *)
Variable Corpus_new : string -> string -> string -> string -> result C.

(** Line 65: the name of the cache file, made of the path alone. *)
Definition cache_file (path : string) : string :=
  path +:+ "/corpus." +:+ md5_hex path +:+ ".data".

(** Lines 66-72 on a file system that holds, under their names, the
    corpora that [torch.save] has written: an existing cache file is
    loaded; otherwise the corpus is produced from the three named files and
    saved. *)
Definition load_or_produce (path train valid test : string)
           (fs : gmap string C) : result C * gmap string C :=
  match fs !! cache_file path with
  | Some c => (Ok c, fs)                                     (* 66-68 *)
  | None =>
      match Corpus_new path train valid test with            (* 71 *)
      | Ok c => (Ok c, <[cache_file path := c]> fs)          (* 72 *)
      | Raise e => (Raise e, fs)
      end
  end.

End CorpusCache.

(** For examples: a digest that is constant, and a corpus that is the name
    of its training file. *)
Module Demo2.

Definition digest (path : string) : string := "d41d8".

Definition corpus_of (path train valid test : string) : result string :=
  Ok train.

(** Constructors of which the encoder refuses to be tied when its
    hidden size is not its embedding size. *)
Definition strict_layers : layers :=
  {| AWDLSTMEncoder := fun e =>
       if enc_tie_weights e && negb (enc_emb_dim e =? enc_hidden_dim e)
       then Raise ConfigurationError else Ok tt;
     DropoutLinearDecoder := fun _ => Ok tt;
     RNNModel := fun _ _ _ => Ok tt |}.

End Demo2.

(** * Properties *)

(** ** A weakest-precondition calculus for the script *)

Section Wp.
Context {F Row Out Hidden Mdl : Type}.
Context `{FloatOps F} `{Torch F Row Out Hidden Mdl}.

Abbreviation World := (world F Row Mdl).
Abbreviation Prog := (prog (F:=F) (Row:=Row) (Mdl:=Mdl)).

Lemma with_sigint_eta (w : World) : with_sigint (sigint w) w = w.
Proof. destruct w; reflexivity. Qed.

Lemma wp_unfold {A} (m : Prog A) Q E w :
  wp m Q E w ->
  match m w with
  | (Ok x, w') => Q x w'
  | (Raise e, w') => E e w'
  end.
Proof. unfold wp. destruct (m w) as [[x|e] w']; auto. Qed.

Lemma wp_ok {A} (m : Prog A) Q E w x w' :
  wp m Q E w -> m w = (Ok x, w') -> Q x w'.
Proof. unfold wp. intros Hwp Hm. rewrite Hm in Hwp. exact Hwp. Qed.

Lemma wp_raise_inv {A} (m : Prog A) Q E w e w' :
  wp m Q E w -> m w = (Raise e, w') -> E e w'.
Proof. unfold wp. intros Hwp Hm. rewrite Hm in Hwp. exact Hwp. Qed.

Lemma wp_mono {A} (m : Prog A) (Q Q' : A -> World -> Prop)
      (E E' : exn -> World -> Prop) w :
  wp m Q E w ->
  (forall x w', Q x w' -> Q' x w') ->
  (forall e w', E e w' -> E' e w') ->
  wp m Q' E' w.
Proof.
  unfold wp. destruct (m w) as [[x|e] w']; auto.
Qed.

Lemma wp_ret {A} (x : A) Q E (w : World) : Q x w -> wp (ret x) Q E w.
Proof. exact (fun q => q). Qed.

Lemma wp_bind {A B} (m : Prog A) (k : A -> Prog B) Q E w :
  wp m (fun x w' => wp (k x) Q E w') E w -> wp (bind m k) Q E w.
Proof.
  unfold wp, bind. destruct (m w) as [[x|e] w']; auto.
Qed.

Lemma wp_raise {A} e (Q : A -> World -> Prop) E (w : World) :
  E e w -> wp (raise e) Q E w.
Proof. exact (fun q => q). Qed.

Lemma wp_lift {A} (r : result A) (Q : A -> World -> Prop) E (w : World) :
  match r with Ok x => Q x w | Raise e => E e w end -> wp (lift r) Q E w.
Proof. unfold wp, lift. destruct r; auto. Qed.

Lemma wp_act (f : World -> World) Q E w : Q tt (f w) -> wp (act f) Q E w.
Proof. exact (fun q => q). Qed.

Lemma wp_read {A} (f : World -> A) Q E w : Q (f w) w -> wp (read f) Q E w.
Proof. exact (fun q => q). Qed.

Lemma wp_tick Q E (w : World) :
  (forall s, (sigint w = None -> s = None) -> Q tt (with_sigint s w)) ->
  (sigint w <> None -> E KeyboardInterrupt (with_sigint None w)) ->
  wp tick Q E w.
Proof.
  intros HQ HE. unfold wp, tick.
  destruct (sigint w) as [[|k]|] eqn:Hs.
  - apply HE. discriminate.
  - apply HQ. discriminate.
  - rewrite <- (with_sigint_eta w) at 1. rewrite Hs. apply HQ. auto.
Qed.

Lemma wp_for_acc {A B} (f : B -> A -> Prog B)
      (I : list A -> B -> World -> Prop) E l acc w :
  I l acc w ->
  (forall x l' acc w, I (x :: l') acc w ->
                      wp (f acc x) (fun acc' w' => I l' acc' w') E w) ->
  wp (for_acc f acc l) (fun acc' w' => I [] acc' w') E w.
Proof.
  intros HI Hf. revert acc w HI.
  induction l as [|x l IH]; intros acc w HI.
  - exact HI.
  - simpl. apply wp_bind. eapply wp_mono.
    + apply Hf, HI.
    + intros acc' w' HI'. apply IH, HI'.
    + auto.
Qed.

Lemma wp_for_each {A} (f : A -> Prog unit)
      (I : list A -> World -> Prop) E l w :
  I l w ->
  (forall x l' w, I (x :: l') w ->
                  wp (f x) (fun _ w' => I l' w') E w) ->
  wp (for_each f l) (fun _ w' => I [] w') E w.
Proof.
  intros HI Hf. revert w HI.
  induction l as [|x l IH]; intros w HI.
  - exact HI.
  - simpl. apply wp_bind. eapply wp_mono.
    + apply Hf, HI.
    + intros u w' HI'. apply IH, HI'.
    + auto.
Qed.

Lemma wp_try_except (body handler : Prog unit) e Q E w :
  wp body Q (fun e' w' => if exn_eqb e' e then wp handler Q E w'
                          else E e' w') w ->
  wp (try_except body e handler) Q E w.
Proof.
  unfold wp at 1 3, try_except.
  destruct (body w) as [[x|e'] w']; auto.
  destruct (exn_eqb e' e); auto.
Qed.

End Wp.

(** ** Stepping through a program *)

Ltac head_of m :=
  lazymatch m with
  | ?f _ => head_of f
  | _ => m
  end.

Ltac wsimpl :=
  cbv [with_lr with_mdl with_heap with_best_loss with_best_epoch
       with_train_losses with_valid_losses with_ckpt with_csv with_txt
       with_sigint emit opt_lr mdl heap best_loss best_epoch train_losses
       valid_losses ckpt_file csv_file txt_file trace sigint
       tensor_value] in *.

Ltac wp_step :=
  lazymatch goal with
  | |- wp (bind _ _) _ _ _ => apply wp_bind
  | |- wp tick _ _ _ => apply wp_tick; [intros ? ? | intros ?]
  | |- wp (act _) _ _ _ => apply wp_act
  | |- wp (read _) _ _ _ => apply wp_read
  | |- wp (ret _) _ _ _ => apply wp_ret
  | |- wp (lift _) _ _ _ => apply wp_lift
  | |- wp (raise _) _ _ _ => apply wp_raise
  | |- wp (new_tensor _) _ _ _ => unfold new_tensor, wp at 1
  | |- wp (call_model_states _) _ _ _ => unfold call_model_states, wp at 1
  | |- wp (call_model_no_grad _) _ _ _ => unfold call_model_no_grad, wp at 1
  | |- wp (if ?b then _ else _) _ _ _ => destruct b eqn:?
  | |- match ?r with Ok _ => _ | Raise _ => _ end => destruct r eqn:?
  | |- wp (for_acc _ _ _) _ _ _ => fail
  | |- wp (for_each _ _) _ _ _ => fail
  | |- wp (try_except _ _ _) _ _ _ => fail
  | |- wp ?m _ _ _ => let h := head_of m in unfold h
  end.

Ltac wp_run := repeat (wp_step; wsimpl).

Ltac solve_sig :=
  unfold sig_ok; wsimpl; solve [intuition (try congruence)].

Ltac solve_trace :=
  rewrite <- ?app_assoc; cbn [app];
  first [ reflexivity
        | eexists; split;
          [ first [reflexivity | symmetry; apply app_nil_r] | reflexivity ] ].

Ltac solve_books := unfold books_eq; wsimpl; repeat split; reflexivity.

Ltac split_all := repeat match goal with |- _ /\ _ => split end.

Ltac finish :=
  split_all;
  first [ reflexivity | assumption | solve_books | solve_trace | solve_sig
        | intros; congruence ].

(** ** One window *)

Section Batches.
Context {F Row Out Hidden Mdl : Type}.
Context `{FloatOps F} `{Torch F Row Out Hidden Mdl}.
Variable a : args F.

Lemma alter_snoc {A} (f : A -> A) (l : list A) (v : A) :
  alter f (length l) (l ++ [v]) = l ++ [f v].
Proof.
  induction l as [|x l IH]; simpl; [reflexivity|].
  f_equal. exact IH.
Qed.

Lemma lookup_snoc {A} (l : list A) (v : A) :
  (l ++ [v]) !! length l = Some v.
Proof. induction l as [|x l IH]; simpl; auto. Qed.

Lemma py_last_ok {A} (l : list A) x : py_last l = Ok x -> last l = Some x.
Proof. unfold py_last. destruct (last l); congruence. Qed.

Lemma py_last_raise {A} (l : list A) e :
  py_last l = Raise e -> e = IndexError.
Proof. unfold py_last. destruct (last l); congruence. Qed.

(** A training window that ends normally, and what an exception leaves. *)
Lemma train_batch_wp (batch : list Row * list Row) (w0 : world F Row Mdl) :
  wp (train_batch a batch)
     (fun v w' =>
        let r := model_call_states (mdl w0) (fst batch) in
        exists d t,
          last (st_dropped_out (snd r)) = Some d /\
          last (st_raw_out (snd r)) = Some t /\
          v = batch_loss a (snd r) (snd batch) d t /\
          trace w' = trace w0 ++
                     train_batch_events a (fst batch) v
                       (window_rate a (fst batch) (opt_lr w0)) /\
          opt_lr w' = (if use_var_bptt a then of_int (lr a)
                       else opt_lr w0) /\
          (use_var_bptt a = true -> bptt a <> 0) /\
          books_eq w0 w' /\ sig_ok w0 None w')
     (fun e w' =>
        books_eq w0 w' /\
        (exists evs, trace w' = trace w0 ++ evs /\
                     forallb is_window_event evs = true) /\
        (use_var_bptt a = false -> opt_lr w' = opt_lr w0) /\
        sig_ok w0 (Some e) w') w0.
Proof.
  destruct w0 as [lr0 m0 h0 bl be tls vls ck csv txt tr sg].
  destruct batch as [x y].
  unfold train_batch.
  wp_run.
  all: rewrite ?alter_snoc, ?lookup_snoc; cbv [default from_option id].
  all: repeat match goal with
         | Hr : py_last _ = Raise _ |- _ => apply py_last_raise in Hr; subst
         end.
  all: try (split; [solve_books
                   | split; [solve_trace
                            | split; [intros; try congruence; reflexivity
                                     | solve_sig]]]).
  all: match goal with
       | Hd : py_last _ = Ok ?d, Ht : py_last _ = Ok ?t |- _ =>
           exists d, t; split; [apply py_last_ok, Hd|];
           split; [apply py_last_ok, Ht|]; split; [reflexivity|];
           split; [unfold train_batch_events, window_rate;
                   rewrite ?Heqb; rewrite <- ?app_assoc; reflexivity|];
           split; [reflexivity|];
           split; [intros; try congruence; apply Z.eqb_neq; assumption|];
           split; [solve_books | solve_sig]
       end.
Qed.

(** An evaluation window. *)
Lemma eval_batch_wp (batch : list Row * list Row) (w0 : world F Row Mdl) :
  wp (eval_batch batch)
     (fun v w' =>
        let r := model_call (mdl w0) (fst batch) in
        v = criterion (snd r) (snd batch) /\
        mdl w' = fst r /\
        trace w' = trace w0 ++ [EForward (fst batch) false false] /\
        opt_lr w' = opt_lr w0 /\
        books_eq w0 w' /\ sig_ok w0 None w')
     (fun e w' =>
        e = KeyboardInterrupt /\
        books_eq w0 w' /\
        opt_lr w' = opt_lr w0 /\
        (exists evs, trace w' = trace w0 ++ evs /\
                     forallb is_no_grad_forward evs = true) /\
        sig_ok w0 (Some e) w') w0.
Proof.
  destruct w0 as [lr0 m0 h0 bl be tls vls ck csv txt tr sg].
  destruct batch as [x y].
  unfold eval_batch.
  wp_run.
  all: rewrite ?lookup_snoc; cbv [default from_option id].
  all: try (split; [reflexivity
                   | split; [solve_books
                            | split; [reflexivity
                                     | split; [solve_trace | solve_sig]]]]).
  finish.
Qed.

End Batches.

(** ** The loops over a loader *)

Section Loops.
Context {F Row Out Hidden Mdl : Type}.
Context `{FloatOps F} `{Torch F Row Out Hidden Mdl}.
Variable a : args F.

Lemma books_eq_refl (w : world F Row Mdl) : books_eq w w.
Proof. unfold books_eq. repeat split. Qed.

Lemma books_eq_trans (w1 w2 w3 : world F Row Mdl) :
  books_eq w1 w2 -> books_eq w2 w3 -> books_eq w1 w3.
Proof. unfold books_eq. intuition congruence. Qed.

Lemma sig_ok_refl (w : world F Row Mdl) : sig_ok w None w.
Proof. unfold sig_ok. intuition congruence. Qed.

Lemma sig_ok_seq (w1 w2 w3 : world F Row Mdl) r :
  sig_ok w1 None w2 -> sig_ok w2 r w3 -> sig_ok w1 r w3.
Proof. unfold sig_ok. intuition. Qed.

Lemma no_grad_forward_window (evs : list (event F Row)) :
  forallb is_no_grad_forward evs = true ->
  forallb is_window_event evs = true.
Proof.
  induction evs as [|e evs IH]; simpl; [auto|].
  intros Hf. apply andb_true_iff in Hf as [He Hr].
  rewrite (IH Hr), andb_true_r.
  destruct e as [ | | |x [] []| | | | | | ]; simpl in *; congruence.
Qed.

Lemma eval_loop_wp (loader : list (list Row * list Row)) :
  forall (acc : F) (w0 : world F Row Mdl),
  wp (for_acc (fun acc batch =>
                 (do v <- eval_batch batch ;; ret (fadd acc v))%prog)
              acc loader)
     (fun acc' w' =>
        acc' = fold_left fadd (snd (eval_run (mdl w0) loader)) acc /\
        mdl w' = fst (eval_run (mdl w0) loader) /\
        trace w' = trace w0 ++ eval_forwards loader /\
        opt_lr w' = opt_lr w0 /\
        books_eq w0 w' /\ sig_ok w0 None w')
     (fun e w' =>
        e = KeyboardInterrupt /\
        books_eq w0 w' /\
        opt_lr w' = opt_lr w0 /\
        (exists evs, trace w' = trace w0 ++ evs /\
                     forallb is_no_grad_forward evs = true) /\
        sig_ok w0 (Some e) w') w0.
Proof.
  induction loader as [|b rest IH]; intros acc w0.
  - apply wp_ret. simpl. rewrite app_nil_r.
    split_all; auto using books_eq_refl, sig_ok_refl.
  - simpl for_acc. apply wp_bind, wp_bind.
    eapply wp_mono; [apply eval_batch_wp | | auto].
    intros v w1 (Hv & Hm & Ht & Hlr & Hb & Hs).
    apply wp_ret.
    eapply wp_mono; [apply IH | |].
    + intros acc' w2 (Hacc & Hm2 & Ht2 & Hlr2 & Hb2 & Hs2).
      simpl. rewrite Hm in Hacc, Hm2. rewrite Hv in Hacc.
      split; [exact Hacc|]. split; [exact Hm2|].
      split; [rewrite Ht2, Ht, <- app_assoc; reflexivity|].
      split; [congruence|].
      split; [eapply books_eq_trans; eassumption
             | eapply sig_ok_seq; eassumption].
    + intros e w2 (He & Hb2 & Hlr2 & (evs & Ht2 & Hf) & Hs2).
      split; [exact He|].
      split; [eapply books_eq_trans; eassumption|].
      split; [congruence|].
      split; [| eapply sig_ok_seq; eassumption].
      exists (EForward (fst b) false false :: evs).
      split; [rewrite Ht2, Ht, <- app_assoc; reflexivity | exact Hf].
Qed.

Lemma train_loop_wp (loader : list (list Row * list Row)) :
  forall (acc : F) (w0 : world F Row Mdl),
  wp (for_acc (fun train_loss batch =>
                 (do v <- train_batch a batch ;;
                  ret (fadd train_loss v))%prog)
              acc loader)
     (fun acc' w' =>
        (exists evs, trace w' = trace w0 ++ evs /\
                     forallb is_window_event evs = true) /\
        (use_var_bptt a = false -> opt_lr w' = opt_lr w0) /\
        (use_var_bptt a = true -> opt_lr w0 = of_int (lr a) ->
         opt_lr w' = of_int (lr a)) /\
        books_eq w0 w' /\ sig_ok w0 None w')
     (fun e w' =>
        (exists evs, trace w' = trace w0 ++ evs /\
                     forallb is_window_event evs = true) /\
        (use_var_bptt a = false -> opt_lr w' = opt_lr w0) /\
        books_eq w0 w' /\ sig_ok w0 (Some e) w') w0.
Proof.
  induction loader as [|b rest IH]; intros acc w0.
  - apply wp_ret. split; [exists []; rewrite app_nil_r; auto|].
    split_all; auto using books_eq_refl, sig_ok_refl.
  - simpl for_acc. apply wp_bind, wp_bind.
    eapply wp_mono; [apply train_batch_wp | |].
    + intros v w1 (d & t & _ & _ & _ & Ht & Hlr & _ & Hb & Hs).
      apply wp_ret.
      eapply wp_mono; [apply IH | |].
      * intros acc' w2 ((evs & Ht2 & Hf) & Hlr2 & Hlr2' & Hb2 & Hs2).
        split.
        { eexists. split; [rewrite Ht2, Ht, <- app_assoc; reflexivity|].
          rewrite forallb_app, Hf, andb_true_r.
          unfold train_batch_events.
          destruct (use_var_bptt a); reflexivity. }
        split.
        { intros Hv. rewrite Hlr2, Hlr, Hv; auto. }
        split.
        { intros Hv _. apply Hlr2'; [exact Hv|]. rewrite Hlr, Hv. auto. }
        split; [eapply books_eq_trans; eassumption
               | eapply sig_ok_seq; eassumption].
      * intros e w2 ((evs & Ht2 & Hf) & Hlr2 & Hb2 & Hs2).
        split.
        { eexists. split; [rewrite Ht2, Ht, <- app_assoc; reflexivity|].
          rewrite forallb_app, Hf, andb_true_r.
          unfold train_batch_events.
          destruct (use_var_bptt a); reflexivity. }
        split.
        { intros Hv. rewrite Hlr2, Hlr, Hv; auto. }
        split; [eapply books_eq_trans; eassumption
               | eapply sig_ok_seq; eassumption].
    + intros e w1 (Hb & Ht & Hlr & Hs). auto.
Qed.

End Loops.

(** ** The passes *)

Ltac open_world H :=
  unfold books_eq, sig_ok in H; wsimpl;
  repeat match goal with
         | Hx : _ /\ _ |- _ => destruct Hx
         | Hx : exists _, _ |- _ => destruct Hx
         end.

Ltac solve_prefix :=
  unfold pass_prefix;
  first [ left; reflexivity
        | right; left; reflexivity
        | right; right; eexists; split; [reflexivity|];
          first [ reflexivity | assumption
                | apply no_grad_forward_window; assumption ] ].

Section Passes.
Context {F Row Out Hidden Mdl : Type}.
Context `{FloatOps F} `{Torch F Row Out Hidden Mdl}.
Variable a : args F.

Lemma eval_run_length (loader : list (list Row * list Row)) :
  forall m : Mdl, length (snd (eval_run m loader)) = length loader.
Proof.
  induction loader as [|b rest IH]; intros m; simpl; [reflexivity|].
  f_equal. apply IH.
Qed.

Lemma eval_forwards_ok (loader : list (list Row * list Row)) :
  forallb (is_no_grad_forward (F:=F)) (eval_forwards loader) = true.
Proof. induction loader as [|b rest IH]; simpl; auto. Qed.

Lemma no_grad_forward_eval (evs : list (event F Row)) :
  forallb is_no_grad_forward evs = true ->
  forallb is_eval_event evs = true.
Proof.
  induction evs as [|e evs IH]; simpl; [auto|].
  intros Hf. apply andb_true_iff in Hf as [He Hr].
  rewrite (IH Hr), andb_true_r.
  destruct e as [ | | |x [] []| | | | | | ]; simpl in *; congruence.
Qed.

Lemma len_zero {A} (l : list A) : (len l =? 0) = true -> l = [].
Proof.
  unfold len. destruct l; [reflexivity|].
  intros Hl. apply Z.eqb_eq in Hl. simpl length in Hl. lia.
Qed.

Lemma len_nonzero {A} (l : list A) : (len l =? 0) = false -> l <> [].
Proof. intros Hl ->. discriminate. Qed.

Lemma eval_mean (m : Mdl) (loader : list (list Row * list Row)) :
  fdiv (fold_left fadd (snd (eval_run m loader)) (of_int 0))
       (of_int (len loader))
  = mean_of (snd (eval_run m loader)).
Proof. unfold mean_of, fsum, len. rewrite eval_run_length. reflexivity. Qed.

Lemma eval_pass_wp (loader : list (list Row * list Row))
      (w0 : world F Row Mdl) :
  wp (eval_pass loader)
     (fun v w' =>
        loader <> [] /\
        v = mean_of (snd (eval_run (eval_start (mdl w0)) loader)) /\
        mdl w' = fst (eval_run (eval_start (mdl w0)) loader) /\
        trace w' = trace w0 ++
                   EModelEval :: EResetHidden :: eval_forwards loader /\
        opt_lr w' = opt_lr w0 /\
        books_eq w0 w' /\ sig_ok w0 None w')
     (fun e w' =>
        books_eq w0 w' /\
        opt_lr w' = opt_lr w0 /\
        (exists evs, trace w' = trace w0 ++ evs /\
                     pass_prefix EModelEval evs /\
                     forallb is_eval_event evs = true) /\
        sig_ok w0 (Some e) w' /\
        (e = KeyboardInterrupt \/
         (e = ZeroDivisionError /\ loader = []))) w0.
Proof.
  destruct w0 as [lr0 m0 h0 bl be tls vls ck csv txt tr sg].
  unfold eval_pass.
  wp_run.
  all: try solve [ split; [solve_books|]; split; [reflexivity|];
                   split; [rewrite <- ?app_assoc; cbn [app]; eexists;
                           split; [first [reflexivity
                                         | symmetry; apply app_nil_r]|];
                           split; [solve_prefix | reflexivity]|];
                   split; [solve_sig | auto] ].
  eapply wp_mono; [apply eval_loop_wp | |].
  - intros acc' [lr1 m1 h1 bl1 be1 tls1 vls1 ck1 csv1 txt1 tr1 sg1] Hw.
    open_world Hw. subst.
    wp_run.
    + split; [solve_books|]. split; [reflexivity|].
      split.
      { rewrite <- ?app_assoc. cbn [app]. eexists. split; [reflexivity|].
        split.
        - right; right. eexists. split; [reflexivity|].
          apply no_grad_forward_window, eval_forwards_ok.
        - cbn. apply no_grad_forward_eval, eval_forwards_ok. }
      split; [solve_sig|]. right. split; [reflexivity|].
      apply len_zero; assumption.
    + split; [apply len_nonzero; assumption|].
      split; [apply eval_mean|]. split; [reflexivity|].
      split; [rewrite <- ?app_assoc; reflexivity|].
      split; [reflexivity|]. split; [solve_books | solve_sig].
    + split; [solve_books|]. split; [reflexivity|].
      split.
      { rewrite <- ?app_assoc. cbn [app]. eexists. split; [reflexivity|].
        split.
        - right; right. eexists. split; [reflexivity|].
          apply no_grad_forward_window, eval_forwards_ok.
        - cbn. apply no_grad_forward_eval, eval_forwards_ok. }
      split; [solve_sig | auto].
  - intros e [lr1 m1 h1 bl1 be1 tls1 vls1 ck1 csv1 txt1 tr1 sg1] Hw.
    open_world Hw. subst.
    split; [solve_books|]. split; [reflexivity|].
    split.
    { rewrite <- ?app_assoc. cbn [app]. eexists. split; [reflexivity|].
      split.
      - right; right. eexists. split; [reflexivity|].
        apply no_grad_forward_window; assumption.
      - cbn. apply no_grad_forward_eval; assumption. }
    split; [solve_sig | auto].
Qed.


Lemma train_pass_wp (loader : list (list Row * list Row))
      (w0 : world F Row Mdl) :
  wp (train_pass a loader)
     (fun v w' =>
        loader <> [] /\
        (exists rest,
            trace w' = trace w0 ++ EModelTrain :: EResetHidden :: rest /\
            forallb is_window_event rest = true) /\
        train_losses w' = train_losses w0 ++ [v] /\
        valid_losses w' = valid_losses w0 /\
        best_loss w' = best_loss w0 /\ best_epoch w' = best_epoch w0 /\
        ckpt_file w' = ckpt_file w0 /\
        csv_file w' = csv_file w0 /\ txt_file w' = txt_file w0 /\
        (use_var_bptt a = false -> opt_lr w' = opt_lr w0) /\
        (use_var_bptt a = true -> opt_lr w0 = of_int (lr a) ->
         opt_lr w' = of_int (lr a)) /\
        sig_ok w0 None w')
     (fun e w' =>
        books_eq w0 w' /\
        (exists evs, trace w' = trace w0 ++ evs /\
                     pass_prefix EModelTrain evs) /\
        (use_var_bptt a = false -> opt_lr w' = opt_lr w0) /\
        sig_ok w0 (Some e) w') w0.
Proof.
  destruct w0 as [lr0 m0 h0 bl be tls vls ck csv txt tr sg].
  unfold train_pass.
  wp_run.
  all: try solve [ split; [solve_books|];
                   split; [rewrite <- ?app_assoc; cbn [app]; eexists;
                           split; [first [reflexivity
                                         | symmetry; apply app_nil_r]
                                  | solve_prefix]|];
                   split; [reflexivity | solve_sig] ].
  eapply wp_mono; [apply train_loop_wp | |].
  - intros acc' [lr1 m1 h1 bl1 be1 tls1 vls1 ck1 csv1 txt1 tr1 sg1] Hw.
    open_world Hw. subst.
    wp_run.
    all: try solve [ split; [solve_books|];
                     split; [rewrite <- ?app_assoc; cbn [app]; eexists;
                             split; [reflexivity | solve_prefix]|];
                     split; [assumption | solve_sig] ].
    split; [apply len_nonzero; assumption|].
    split; [rewrite <- ?app_assoc; cbn [app]; eexists;
            split; [reflexivity | assumption]|].
    split_all; try reflexivity; try assumption. solve_sig.
  - intros e [lr1 m1 h1 bl1 be1 tls1 vls1 ck1 csv1 txt1 tr1 sg1] Hw.
    open_world Hw. subst.
    split; [solve_books|].
    split; [rewrite <- ?app_assoc; cbn [app]; eexists;
            split; [reflexivity | solve_prefix]|].
    split; [assumption | solve_sig].
Qed.

Lemma save_or_anneal_wp (e : Z) (v : F) (w0 : world F Row Mdl) :
  wp (save_or_anneal a e v)
     (fun _ w' =>
        mdl w' = mdl w0 /\
        train_losses w' = train_losses w0 /\
        valid_losses w' = valid_losses w0 /\
        csv_file w' = csv_file w0 /\ txt_file w' = txt_file w0 /\
        sig_ok w0 None w' /\
        if flt v (best_loss w0)
        then best_loss w' = v /\ best_epoch w' = e /\
             ckpt_file w' = Some (mdl w0) /\
             opt_lr w' = opt_lr w0 /\
             trace w' = trace w0 ++ [ESaveCheckpoint e]
        else best_loss w' = best_loss w0 /\
             best_epoch w' = best_epoch w0 /\
             ckpt_file w' = ckpt_file w0 /\
             if use_var_bptt a
             then opt_lr w' = opt_lr w0 /\ trace w' = trace w0
             else fis_zero (anneal_factor a) = false /\
                  opt_lr w' = fdiv (opt_lr w0) (anneal_factor a) /\
                  trace w' = trace w0 ++ [ESetLR (opt_lr w')])
     (fun e' w' =>
        mdl w' = mdl w0 /\
        train_losses w' = train_losses w0 /\
        valid_losses w' = valid_losses w0 /\
        ckpt_file w' = ckpt_file w0 /\
        csv_file w' = csv_file w0 /\ txt_file w' = txt_file w0 /\
        trace w' = trace w0 /\
        sig_ok w0 (Some e') w') w0.
Proof.
  destruct w0 as [lr0 m0 h0 bl be tls vls ck csv txt tr sg].
  unfold save_or_anneal.
  wp_run.
  all: try match goal with
         | Hb : negb ?b = true |- _ =>
             apply negb_true_iff in Hb; rewrite ?Hb
         | Hb : negb ?b = false |- _ =>
             apply negb_false_iff in Hb; rewrite ?Hb
         end.
  all: finish.
Qed.

End Passes.

(** ** The discipline of the passes *)

Section MonitorFacts.
Context {F Row : Type}.
Implicit Types (evs : list (event F Row)) (p : phase).

Lemma monitor_app p evs1 evs2 :
  pass_monitor p (evs1 ++ evs2) =
  match pass_monitor p evs1 with
  | Some q => pass_monitor q evs2
  | None => None
  end.
Proof.
  revert p. induction evs1 as [|e evs1 IH]; intros p; simpl; [reflexivity|].
  destruct (pass_step p e); auto.
Qed.

Lemma monitor_windows evs :
  forallb is_window_event evs = true ->
  forall p, p = Ready \/ p = Iterating ->
            exists q, pass_monitor p evs = Some q /\
                      (q = Ready \/ q = Iterating).
Proof.
  induction evs as [|e evs IH]; simpl; intros Hf p Hp; [eauto|].
  apply andb_true_iff in Hf as [He Hf].
  destruct e; simpl in He; try discriminate; simpl;
    destruct Hp as [-> | ->]; apply IH; auto.
Qed.

Lemma accepted_nil : accepted (F:=F) (Row:=Row) [].
Proof. intros p. discriminate. Qed.

Lemma accepted_app evs1 evs2 :
  accepted evs1 -> accepted evs2 -> accepted (evs1 ++ evs2).
Proof.
  intros H1 H2 p. rewrite monitor_app.
  destruct (pass_monitor p evs1) eqn:Hm; [apply H2 | destruct (H1 p Hm)].
Qed.

Lemma accepted_pass (m : event F Row) rest :
  m = EModelTrain \/ m = EModelEval ->
  forallb is_window_event rest = true ->
  accepted (m :: EResetHidden :: rest).
Proof.
  intros Hm Hf p.
  destruct (monitor_windows rest Hf Ready (or_introl eq_refl))
    as (q & Hq & _).
  destruct Hm as [-> | ->]; simpl; rewrite Hq; discriminate.
Qed.

Lemma accepted_prefix (m : event F Row) evs :
  m = EModelTrain \/ m = EModelEval ->
  pass_prefix m evs -> accepted evs.
Proof.
  intros Hm [-> | [-> | (rest & -> & Hf)]].
  - apply accepted_nil.
  - intros p. destruct Hm as [-> | ->]; discriminate.
  - apply accepted_pass; assumption.
Qed.

Lemma accepted_checkpoint e : accepted (F:=F) (Row:=Row) [ESaveCheckpoint e].
Proof. intros p. discriminate. Qed.

Lemma accepted_set_lr (v : F) : accepted (Row:=Row) [ESetLR v].
Proof. intros p. discriminate. Qed.

Lemma window_no_pass evs :
  forallb is_window_event evs = true -> List.filter is_pass_event evs = [].
Proof.
  induction evs as [|e evs IH]; simpl; [auto|].
  intros Hf. apply andb_true_iff in Hf as [He Hf].
  destruct e; simpl in *; try discriminate; auto.
Qed.

Lemma window_no_checkpoint evs :
  forallb is_window_event evs = true -> List.filter is_checkpoint evs = [].
Proof.
  induction evs as [|e evs IH]; simpl; [auto|].
  intros Hf. apply andb_true_iff in Hf as [He Hf].
  destruct e; simpl in *; try discriminate; auto.
Qed.

End MonitorFacts.

(** ** One epoch *)

Ltac solve_accepted :=
  repeat first
    [ apply accepted_nil
    | apply accepted_checkpoint
    | apply accepted_set_lr
    | apply accepted_pass;
      [ first [left; reflexivity | right; reflexivity]
      | first [ assumption
              | apply no_grad_forward_window, eval_forwards_ok ] ]
    | eapply accepted_prefix;
      [ | eassumption ]; first [left; reflexivity | right; reflexivity]
    | apply accepted_app ].

Ltac solve_filter :=
  rewrite ?List.filter_app; cbn [List.filter is_pass_event is_checkpoint];
  rewrite ?window_no_pass, ?window_no_checkpoint
    by first [ assumption | apply no_grad_forward_window, eval_forwards_ok ];
  reflexivity.

Ltac epoch_trace :=
  rewrite <- ?app_assoc; eexists; split;
  [ first [reflexivity | symmetry; apply app_nil_r] | solve_accepted ].

Ltac solve_lens :=
  first [ left; split; reflexivity
        | right; left; eexists; split; reflexivity
        | right; right; do 2 eexists; split; reflexivity ].

Ltac epoch_raise :=
  split; [reflexivity|]; split; [reflexivity|]; split; [solve_sig|];
  split; [epoch_trace | solve_lens].

Section Epochs.
Context {F Row Out Hidden Mdl : Type}.
Context `{FloatOps F} `{Torch F Row Out Hidden Mdl}.
Variable a : args F.
Variables train_loader valid_loader : list (list Row * list Row).

Lemma epoch_wp (e : Z) (w0 : world F Row Mdl) :
  wp (epoch a train_loader valid_loader e)
     (fun _ w' =>
        exists tv v evs,
          train_losses w' = train_losses w0 ++ [tv] /\
          valid_losses w' = valid_losses w0 ++ [v] /\
          csv_file w' = csv_file w0 /\ txt_file w' = txt_file w0 /\
          sig_ok w0 None w' /\
          trace w' = trace w0 ++ evs /\ accepted evs /\
          List.filter is_pass_event evs = epoch_passes /\
          List.filter is_checkpoint evs =
            (if flt v (best_loss w0) then [ESaveCheckpoint e] else []) /\
          (use_var_bptt a = true -> opt_lr w0 = of_int (lr a) ->
           opt_lr w' = of_int (lr a)) /\
          if flt v (best_loss w0)
          then best_loss w' = v /\ best_epoch w' = e /\
               ckpt_file w' = Some (mdl w') /\
               (use_var_bptt a = false -> opt_lr w' = opt_lr w0)
          else best_loss w' = best_loss w0 /\
               best_epoch w' = best_epoch w0 /\
               ckpt_file w' = ckpt_file w0 /\
               (use_var_bptt a = false ->
                fis_zero (anneal_factor a) = false /\
                opt_lr w' = fdiv (opt_lr w0) (anneal_factor a)))
     (fun e' w' =>
        csv_file w' = csv_file w0 /\ txt_file w' = txt_file w0 /\
        sig_ok w0 (Some e') w' /\
        (exists evs, trace w' = trace w0 ++ evs /\ accepted evs) /\
        ((train_losses w' = train_losses w0 /\
          valid_losses w' = valid_losses w0) \/
         (exists tv, train_losses w' = train_losses w0 ++ [tv] /\
                     valid_losses w' = valid_losses w0) \/
         (exists tv v, train_losses w' = train_losses w0 ++ [tv] /\
                       valid_losses w' = valid_losses w0 ++ [v]))) w0.
Proof.
  destruct w0 as [lr0 m0 h0 bl be tls vls ck csv txt tr sg].
  unfold epoch. apply wp_bind.
  eapply wp_mono; [apply train_pass_wp | |].
  - intros tv [lr1 m1 h1 bl1 be1 tls1 vls1 ck1 csv1 txt1 tr1 sg1] Hw.
    open_world Hw. subst.
    apply wp_bind.
    eapply wp_mono; [apply eval_pass_wp | |].
    + intros v [lr2 m2 h2 bl2 be2 tls2 vls2 ck2 csv2 txt2 tr2 sg2] Hw.
      open_world Hw. subst.
      wp_run.
      all: try solve [ epoch_raise ].
      all: do 3 eexists; split; [reflexivity|]; split; [reflexivity|].
      all: try match goal with
             | Hb : negb ?b = true |- _ =>
                 apply negb_true_iff in Hb; rewrite ?Hb
             | Hb : negb ?b = false |- _ =>
                 apply negb_false_iff in Hb; rewrite ?Hb
             end.
      all: match goal with Hb : flt _ _ = _ |- _ => rewrite Hb end.
      all: rewrite <- ?app_assoc.
      all: split_all; try reflexivity; try assumption;
        try solve_sig; try solve [solve_accepted]; try solve_filter;
        try (intros; congruence); try (intros; split; auto).
    + intros e' [lr2 m2 h2 bl2 be2 tls2 vls2 ck2 csv2 txt2 tr2 sg2] Hw.
      open_world Hw. subst. epoch_raise.
  - intros e' [lr1 m1 h1 bl1 be1 tls1 vls1 ck1 csv1 txt1 tr1 sg1] Hw.
    open_world Hw. subst. epoch_raise.
Qed.
End Epochs.

(** ** The epoch loop and what follows it *)

Section Runs.
Context {F Row Out Hidden Mdl : Type}.
Context `{FloatOps F} `{Torch F Row Out Hidden Mdl}.
Variable a : args F.
Variables train_loader valid_loader test_loader : list (list Row * list Row).

Lemma running_best_snoc (vs : list F) (v : F) :
  running_best (vs ++ [v]) =
  if flt v (running_best vs) then v else running_best vs.
Proof. unfold running_best. rewrite fold_left_app. reflexivity. Qed.

Lemma epochs_wp (es : list Z) :
  forall w0 : world F Row Mdl,
  wp (for_each (epoch a train_loader valid_loader) es)
     (fun _ w' =>
        length (train_losses w') = (length (train_losses w0) + length es)%nat /\
        length (valid_losses w') = (length (valid_losses w0) + length es)%nat /\
        csv_file w' = csv_file w0 /\ txt_file w' = txt_file w0 /\
        sig_ok w0 None w' /\
        (exists evs, trace w' = trace w0 ++ evs /\ accepted evs /\
                     List.filter is_pass_event evs =
                     concat (repeat epoch_passes (length es))) /\
        (best_loss w0 = running_best (valid_losses w0) ->
         best_loss w' = running_best (valid_losses w')))
     (fun e' w' =>
        csv_file w' = csv_file w0 /\ txt_file w' = txt_file w0 /\
        sig_ok w0 (Some e') w' /\
        (exists evs, trace w' = trace w0 ++ evs /\ accepted evs) /\
        exists n,
          length (train_losses w') = (length (train_losses w0) + n)%nat /\
          (length (valid_losses w') = (length (valid_losses w0) + n)%nat \/
           S (length (valid_losses w')) = (length (valid_losses w0) + n)%nat))
     w0.
Proof.
  induction es as [|e es IH]; intros w0.
  - apply wp_ret. simpl. rewrite !Nat.add_0_r.
    split_all; auto using sig_ok_refl.
    exists []. rewrite app_nil_r. auto using accepted_nil.
  - simpl for_each. apply wp_bind.
    eapply wp_mono; [apply epoch_wp | |].
    + intros _ w1 (tv & v & evs & Ht & Hv & Hcsv & Htxt & Hs & Htr & Hacc
                   & Hpass & _ & _ & Hbest).
      eapply wp_mono; [apply IH | |].
      * intros _ w2 (Ht2 & Hv2 & Hcsv2 & Htxt2 & Hs2
                     & (evs2 & Htr2 & Hacc2 & Hpass2) & Hbest2).
        rewrite Ht, length_app in Ht2. rewrite Hv, length_app in Hv2.
        simpl in Ht2, Hv2.
        split; [simpl; lia|]. split; [simpl; lia|].
        split; [congruence|]. split; [congruence|].
        split; [eapply sig_ok_seq; eassumption|].
        split.
        { exists (evs ++ evs2).
          split; [rewrite Htr2, Htr, <- app_assoc; reflexivity|].
          split; [apply accepted_app; assumption|].
          rewrite List.filter_app, Hpass, Hpass2. reflexivity. }
        intros Hb0. apply Hbest2. rewrite Hv, running_best_snoc, <- Hb0.
        destruct (flt v (best_loss w0)); tauto.
      * intros e' w2 (Hcsv2 & Htxt2 & Hs2 & (evs2 & Htr2 & Hacc2)
                      & n & Ht2 & Hv2).
        rewrite Ht, length_app in Ht2. rewrite Hv, length_app in Hv2.
        simpl in Ht2, Hv2.
        split; [congruence|]. split; [congruence|].
        split; [eapply sig_ok_seq; eassumption|].
        split.
        { exists (evs ++ evs2).
          split; [rewrite Htr2, Htr, <- app_assoc; reflexivity|].
          apply accepted_app; assumption. }
        exists (S n). lia.
    + intros e' w1 (Hcsv & Htxt & Hs & Htr & Hlens).
      split; [assumption|]. split; [assumption|]. split; [assumption|].
      split; [assumption|].
      destruct Hlens as [[Ht Hv] | [(tv & Ht & Hv) | (tv & v & Ht & Hv)]];
        rewrite Ht, Hv, ?length_app; simpl.
      * exists 0%nat. lia.
      * exists 1%nat. lia.
      * exists 1%nat. lia.
Qed.

Lemma DataFrame_ok (l1 l2 : list F) df :
  DataFrame l1 l2 = Ok df -> length l1 = length l2 /\ df = combine l1 l2.
Proof.
  unfold DataFrame. destruct (length l1 =? length l2)%nat eqn:Hl;
    [|discriminate].
  intros [= <-]. apply Nat.eqb_eq in Hl. auto.
Qed.

Lemma DataFrame_raise (l1 l2 : list F) e :
  DataFrame l1 l2 = Raise e -> length l1 <> length l2 /\ e = ValueError.
Proof.
  unfold DataFrame. destruct (length l1 =? length l2)%nat eqn:Hl;
    [discriminate|].
  intros [= <-]. apply Nat.eqb_neq in Hl. auto.
Qed.

Lemma after_loop_wp (w1 : world F Row Mdl) :
  wp (after_loop test_loader)
     (fun _ w' =>
        test_loader <> [] /\
        length (train_losses w1) = length (valid_losses w1) /\
        csv_file w' = Some (combine (train_losses w1) (valid_losses w1)) /\
        txt_file w' =
          Some (best_loss w1, best_epoch w1,
                mean_of (snd (eval_run (eval_start (mdl w1)) test_loader))) /\
        mdl w' = fst (eval_run (eval_start (mdl w1)) test_loader) /\
        trace w' = trace w1 ++
                   EModelEval :: EResetHidden :: eval_forwards test_loader /\
        train_losses w' = train_losses w1 /\
        valid_losses w' = valid_losses w1 /\
        ckpt_file w' = ckpt_file w1 /\ opt_lr w' = opt_lr w1 /\
        sig_ok w1 None w')
     (fun e w' =>
        txt_file w' = txt_file w1 /\
        train_losses w' = train_losses w1 /\
        valid_losses w' = valid_losses w1 /\
        ckpt_file w' = ckpt_file w1 /\ opt_lr w' = opt_lr w1 /\
        (exists evs, trace w' = trace w1 ++ evs /\
                     pass_prefix EModelEval evs /\
                     forallb is_eval_event evs = true) /\
        sig_ok w1 (Some e) w' /\
        (csv_file w' = csv_file w1 \/
         length (train_losses w1) = length (valid_losses w1)) /\
        (e = ValueError ->
         test_loader <> [] /\
         length (train_losses w1) <> length (valid_losses w1) /\
         csv_file w' = csv_file w1 /\
         mdl w' = fst (eval_run (eval_start (mdl w1)) test_loader) /\
         trace w' = trace w1 ++
                    EModelEval :: EResetHidden :: eval_forwards test_loader) /\
        (sigint w1 = None ->
         (e = ZeroDivisionError /\ test_loader = []) \/ e = ValueError))
     w1.
Proof.
  destruct w1 as [lr0 m0 h0 bl be tls vls ck csv txt tr sg].
  unfold after_loop. apply wp_bind.
  eapply wp_mono; [apply eval_pass_wp | |].
  - intros v [lr1 m1 h1 bl1 be1 tls1 vls1 ck1 csv1 txt1 tr1 sg1] Hw.
    open_world Hw. subst.
    wp_run.
    all: repeat match goal with
           | Hd : DataFrame _ _ = Ok _ |- _ =>
               apply DataFrame_ok in Hd; destruct Hd; subst
           | Hd : DataFrame _ _ = Raise _ |- _ =>
               apply DataFrame_raise in Hd; destruct Hd; subst
           end.
    all: split_all.
    all: try solve [ reflexivity | assumption | solve_sig
                   | apply len_nonzero; assumption
                   | left; reflexivity | right; assumption
                   | intros; discriminate
                   | intros; right; reflexivity
                   | intros; exfalso; unfold sig_ok in *;
                     intuition congruence
                   | eexists; split; [reflexivity|]; split;
                     [ right; right; eexists; split; [reflexivity|];
                       apply no_grad_forward_window, eval_forwards_ok
                     | cbn; apply no_grad_forward_eval, eval_forwards_ok ] ].
  - intros e [lr1 m1 h1 bl1 be1 tls1 vls1 ck1 csv1 txt1 tr1 sg1] Hw.
    open_world Hw. subst.
    split_all.
    all: try solve [ reflexivity | assumption | solve_sig
                   | left; reflexivity
                   | eexists; split; [reflexivity|]; split; assumption ].
Qed.

(** The handler of line 173 passes the world of the interrupt, as it
    is, to the statements that follow the loop. *)
Lemma script_cases (w0 : world F Row Mdl) :
  script a train_loader valid_loader test_loader w0 =
  match epoch_loop a train_loader valid_loader w0 with
  | (Ok _, w1) => after_loop test_loader w1
  | (Raise KeyboardInterrupt, w1) => after_loop test_loader w1
  | (Raise e, w1) => (Raise e, w1)
  end.
Proof.
  unfold script, bind, try_except.
  destruct (epoch_loop a train_loader valid_loader w0) as [[[]|e] w1];
    [reflexivity|].
  destruct e; reflexivity.
Qed.

End Runs.

(** ** The batcher *)

Section BatcherFacts.
Context {A : Type}.
Implicit Types (s : list A) (t : Z).

Lemma slice_length s lo hi :
  0 <= lo -> lo <= hi -> hi <= len s -> len (slice s lo hi) = hi - lo.
Proof.
  unfold slice, len. intros Hlo Hhi Hs.
  rewrite length_take, length_drop. lia.
Qed.

Lemma slice_empty s lo hi : hi <= lo -> slice s lo hi = [].
Proof.
  unfold slice. intros Hle.
  replace (Z.to_nat (hi - lo)) with 0%nat by lia. reflexivity.
Qed.

Lemma slice_app s a b c :
  0 <= a -> a <= b -> b <= c ->
  slice s a b ++ slice s b c = slice s a c.
Proof.
  unfold slice. intros Ha Hb Hc.
  replace (Z.to_nat b) with (Z.to_nat a + Z.to_nat (b - a))%nat by lia.
  rewrite <- drop_drop, take_take_drop. f_equal. lia.
Qed.

Lemma slice_removelast s : slice s 0 (len s - 1) = removelast s.
Proof.
  unfold slice, len. change (Z.to_nat 0) with 0%nat. rewrite drop_0.
  replace (Z.to_nat (Z.of_nat (length s) - 1 - 0)) with (pred (length s))
    by lia.
  symmetry. apply removelast_firstn_len.
Qed.

Lemma slice_tail s : slice s 1 (len s) = tl s.
Proof.
  unfold slice, len. destruct s as [|x s]; [reflexivity|].
  simpl drop. change (Z.to_nat 1) with 1%nat. simpl drop. simpl tl.
  replace (Z.to_nat (Z.of_nat (length (x :: s)) - 1)) with (length s)
    by (simpl length; lia).
  apply take_ge. lia.
Qed.

Variable stream : list A.
Variable B : Z.
Variable var : bool.
Variable draw : nat -> Z.

Lemma window_len_bounds t k :
  var = true \/ 0 < B -> 1 <= remaining stream t ->
  1 <= window_len stream B var draw t k <= remaining stream t.
Proof.
  unfold window_len, min_len. intros Hm Hr.
  destruct var; [lia|]. destruct Hm; [discriminate | lia].
Qed.

Lemma lost_range t : 0 <= lost stream B var t <= 1.
Proof. unfold lost. destruct (_ && _); lia. Qed.

Lemma lost_var t : var = true -> lost stream B var t = 0.
Proof. intros ->. reflexivity. Qed.

Lemma lost_end t : remaining stream t < 1 -> lost stream B var t = 0.
Proof.
  intros Hr. unfold lost.
  destruct (1 <=? remaining stream t) eqn:Hle;
    [apply Z.leb_le in Hle; lia|].
  rewrite andb_false_r. reflexivity.
Qed.

(** A window that is dropped is a single token, the last of its stream
    to have a successor. *)
Lemma dropped_last t k :
  var = true \/ 0 < B -> 1 <= remaining stream t ->
  dropped B var (window_len stream B var draw t k) = true ->
  remaining stream t = 1 /\ lost stream B var t = 1.
Proof.
  intros Hm Hr Hd. unfold dropped in Hd.
  apply andb_true_iff in Hd as [Hd H2]. apply andb_true_iff in Hd as [Hv HB].
  apply negb_true_iff in Hv. apply Z.ltb_lt in H2, HB.
  unfold window_len in *. rewrite Hv in *.
  destruct Hm as [Hm | Hm]; [congruence|].
  assert (remaining stream t = 1) as Hone by lia.
  split; [exact Hone|].
  unfold lost. rewrite ?Hv, Hone. cbn [negb andb].
  assert ((2 <=? B) = true) as -> by (apply Z.leb_le; lia).
  rewrite Z.mod_small by lia. reflexivity.
Qed.

(** A window that is kept leaves, after it, as many lost tokens as there
    were before it, and does not reach them. *)
Lemma kept_step t k :
  var = true \/ 0 < B -> 1 <= remaining stream t ->
  dropped B var (window_len stream B var draw t k) = false ->
  lost stream B var (t + window_len stream B var draw t k)
  = lost stream B var t /\
  window_len stream B var draw t k + lost stream B var t
  <= remaining stream t.
Proof.
  intros Hm Hr Hd.
  pose proof (window_len_bounds t k Hm Hr) as HL.
  assert (var = true \/ var = false) as [Hv | Hv] by (destruct var; auto).
  { rewrite !(lost_var _ Hv). split; [reflexivity | lia]. }
  destruct Hm as [Hm | HB]; [congruence|].
  unfold dropped in Hd. unfold window_len in *. rewrite Hv in *.
  cbn [negb andb] in Hd.
  set (r := remaining stream t) in *.
  assert (remaining stream (t + Z.min B r) = r - Z.min B r) as Hrem
      by (unfold remaining, r; unfold remaining; lia).
  unfold lost. rewrite Hrem. fold r. cbn [negb andb].
  destruct (Z.le_gt_cases B r) as [Hge | Hlt].
  - rewrite Z.min_l in * by lia.
    destruct (2 <=? B) eqn:H2; cbn [andb]; [|split; [reflexivity | lia]].
    apply Z.leb_le in H2.
    assert ((r - B) mod B = r mod B) as Hmod.
    { replace (r - B) with (r + (-1) * B) by lia. apply Z.mod_add. lia. }
    rewrite Hmod.
    assert ((1 <=? r) = true) as -> by (apply Z.leb_le; lia).
    cbn [andb].
    destruct (r mod B =? 1) eqn:Hone.
    + apply Z.eqb_eq in Hone.
      assert (r <> B) as Hne.
      { intros ->. rewrite Z.mod_same in Hone by lia. lia. }
      assert ((1 <=? r - B) = true) as -> by (apply Z.leb_le; lia).
      cbn [andb]. split; [reflexivity | lia].
    + rewrite andb_false_r. split; [reflexivity | lia].
  - rewrite Z.min_r in * by lia.
    assert (2 <= r) as Hr2.
    { destruct (r <? B) eqn:HrB; [|apply Z.ltb_ge in HrB; lia].
      cbn [andb] in Hd. apply Z.ltb_ge in Hd. lia. }
    replace (r - r) with 0 by lia.
    assert ((1 <=? 0) = false) as -> by reflexivity.
    rewrite andb_false_r. cbn [andb].
    rewrite Z.mod_small by lia.
    assert ((r =? 1) = false) as -> by (apply Z.eqb_neq; lia).
    rewrite !andb_false_r. split; [reflexivity | lia].
Qed.

Lemma windows_from_spec (fuel : nat) :
  forall t k,
    var = true \/ 0 < B -> 0 <= t ->
    (Z.to_nat (remaining stream t) <= fuel)%nat ->
    exists ws,
      windows_from stream B var draw fuel t k = Some ws /\
      windows_cover stream t ws /\
      concat (map fst ws)
      = slice stream t (len stream - 1 - lost stream B var t) /\
      concat (map snd ws)
      = slice stream (t + 1) (len stream - lost stream B var t) /\
      (var = true ->
       Forall (fun w => min_len <= len (fst w)) (removelast ws)) /\
      (var = false -> base_length_windows B ws).
Proof.
  assert (forall t, remaining stream t < 1 ->
            exists ws : list (list A * list A),
              Some [] = Some ws /\
              windows_cover stream t ws /\
              concat (map fst ws)
              = slice stream t (len stream - 1 - lost stream B var t) /\
              concat (map snd ws)
              = slice stream (t + 1) (len stream - lost stream B var t) /\
              (var = true ->
               Forall (fun w => min_len <= len (fst w)) (removelast ws)) /\
              (var = false -> base_length_windows B ws)) as Hend.
  { intros t Hr. exists []. rewrite (lost_end t Hr).
    unfold remaining in Hr. rewrite !slice_empty by lia.
    unfold base_length_windows. simpl. auto 10. }
  induction fuel as [|fuel IH]; intros t k Hm Ht Hfuel.
  - simpl. destruct (remaining stream t <? 1) eqn:Hlt;
      [apply Z.ltb_lt in Hlt; apply Hend, Hlt | apply Z.ltb_ge in Hlt; lia].
  - simpl. destruct (remaining stream t <? 1) eqn:Hlt;
      [apply Z.ltb_lt in Hlt; apply Hend, Hlt|].
    apply Z.ltb_ge in Hlt.
    destruct (dropped B var (window_len stream B var draw t k)) eqn:Hd.
    + destruct (dropped_last t k Hm Hlt Hd) as [Hone Hlost].
      exists []. rewrite Hlost. unfold remaining in Hone.
      rewrite !slice_empty by lia.
      unfold base_length_windows. simpl. auto 10.
    + pose proof (window_len_bounds t k Hm Hlt) as HL.
      destruct (kept_step t k Hm Hlt Hd) as [Hsame Hroom].
      unfold remaining in HL, Hroom, Hfuel, Hlt.
      set (L := window_len stream B var draw t k) in *.
      pose proof (lost_range t) as Hd01.
      set (d := lost stream B var t) in *.
      destruct (IH (t + L) (S k) Hm)
        as (ws & Hws & Hcov & Hin & Htg & Hfl & Hbase);
        [lia | unfold remaining; lia |].
      rewrite Hsame in Hin, Htg.
      rewrite Hws. simpl option_map.
      exists (window_at stream t L :: ws).
      assert (len (slice stream t (t + L)) = L) as Hlx
          by (rewrite slice_length; lia).
      assert (len (slice stream (t + 1) (t + L + 1)) = L) as Hly
          by (rewrite slice_length; lia).
      split; [reflexivity|].
      split.
      { simpl. rewrite Hlx. split_all; auto; try lia.
        unfold len in Hlx, Hly. lia. }
      split.
      { simpl. rewrite Hin. apply slice_app; lia. }
      split.
      { simpl. rewrite Htg. apply slice_app; lia. }
      split.
      { intros Hv. specialize (Hfl Hv).
        destruct ws as [|w ws']; [constructor|].
        change (removelast (window_at stream t L :: w :: ws'))
          with (window_at stream t L :: removelast (w :: ws')).
        constructor; [|exact Hfl].
        simpl. rewrite Hlx.
        simpl in Hcov. destruct Hcov as (_ & _ & _ & Hw & _).
        subst L. unfold window_len in *. rewrite Hv in *.
        unfold remaining, min_len in *. lia. }
      intros Hv. specialize (Hbase Hv). destruct Hbase as [Hb1 Hb2].
      assert (L <= B) as HLB.
      { subst L. unfold window_len. rewrite Hv. lia. }
      split.
      { destruct ws as [|w ws']; [constructor|].
        change (removelast (window_at stream t L :: w :: ws'))
          with (window_at stream t L :: removelast (w :: ws')).
        constructor; [|exact Hb1].
        simpl. rewrite Hlx.
        simpl in Hcov. destruct Hcov as (_ & _ & _ & Hw & _).
        subst L. unfold window_len in *. rewrite Hv in *.
        unfold remaining in *. lia. }
      constructor; [|exact Hb2]. simpl. rewrite Hlx. lia.
Qed.

Lemma batcher_spec :
  var = true \/ 0 < B ->
  exists ws,
    batcher stream B var draw = Some ws /\
    windows_cover stream 0 ws /\
    concat (map fst ws)
    = slice stream 0 (len stream - 1 - lost stream B var 0) /\
    concat (map snd ws)
    = slice stream 1 (len stream - lost stream B var 0) /\
    (var = true ->
     Forall (fun w => min_len <= len (fst w)) (removelast ws)) /\
    (var = false -> base_length_windows B ws).
Proof.
  intros Hm. unfold batcher.
  destruct (windows_from_spec (length stream) 0 0 Hm)
    as (ws & Hws & Hcov & Hin & Htg & Hfl & Hbase);
    [lia | unfold remaining, len; lia |].
  exists ws. auto 10.
Qed.

End BatcherFacts.

(** ** The two penalties *)

Section Penalties.
Context {F : Type} `{FloatOps F}.

Lemma tmean_tpow2 (t : list (list F)) :
  tmean (tpow2 t) = mean_of (squares (concat t)).
Proof.
  unfold tmean, tpow2, mean_of, squares.
  rewrite <- concat_map. reflexivity.
Qed.

Lemma step_diff_shift (h : list F) (l : list (list F)) (n : nat) :
  forall start, (1 <= start)%nat ->
    flat_map (step_diff (h :: l)) (seq (S start) n) =
    flat_map (step_diff l) (seq start n).
Proof.
  induction n as [|n IH]; intros start Hs; [reflexivity|].
  cbn [seq flat_map]. rewrite IH by lia. f_equal.
  unfold step_diff. destruct start as [|start']; [lia|].
  cbn [nth Nat.sub]. rewrite ?Nat.sub_0_r. reflexivity.
Qed.

Lemma concat_tsub (rest : list (list F)) :
  forall h,
    concat (tsub rest (removelast (h :: rest))) =
    flat_map (step_diff (h :: rest)) (seq 1 (length rest)).
Proof.
  induction rest as [|x rest IH]; intros h; [reflexivity|].
  change (removelast (h :: x :: rest)) with (h :: removelast (x :: rest)).
  cbn [tsub concat length seq flat_map].
  rewrite IH.
  rewrite (step_diff_shift h (x :: rest) (length rest) 1) by lia.
  reflexivity.
Qed.

Lemma ar_term_spec (dropped : list (list F)) :
  ar_term dropped = mean_of_squares dropped.
Proof. apply tmean_tpow2. Qed.

Lemma tar_term_spec (raw : list (list F)) :
  tar_term raw = mean_sq_consecutive_diff raw.
Proof.
  unfold tar_term, mean_sq_consecutive_diff, consecutive_diffs.
  rewrite tmean_tpow2. do 2 f_equal.
  destruct raw as [|h rest]; [reflexivity|].
  unfold tail_steps, init_steps. cbn [tl length].
  rewrite concat_tsub. f_equal. f_equal. lia.
Qed.

End Penalties.

(** ** The model from window to window *)

Section ModelThreading.
Context {F Row Out Hidden Mdl : Type}.
Context `{FloatOps F} `{Torch F Row Out Hidden Mdl}.
Variable a : args F.

Lemma last_layer_ok (l : list (list (list F))) d :
  py_last l = Ok d -> last_layer l = d.
Proof. intros Hl. unfold last_layer. rewrite (py_last_ok _ _ Hl). reflexivity. Qed.

Lemma train_batch_model_wp (batch : list Row * list Row)
      (w0 : world F Row Mdl) :
  wp (train_batch a batch)
     (fun v w' =>
        (mdl w', v) = train_window a (window_rate a (fst batch) (opt_lr w0))
                                   (mdl w0) batch /\
        opt_lr w' = (if use_var_bptt a then of_int (lr a) else opt_lr w0))
     (fun _ _ => True) w0.
Proof.
  destruct w0 as [lr0 m0 h0 bl be tls vls ck csv txt tr sg].
  destruct batch as [x y].
  unfold train_batch.
  wp_run.
  all: try exact I.
  all: rewrite ?alter_snoc, ?lookup_snoc; cbv [default from_option id].
  all: unfold train_window, window_rate, batch_loss; cbn [fst snd] in *.
  all: repeat match goal with
         | Hr : py_last _ = Ok _ |- _ => apply last_layer_ok in Hr; rewrite Hr
         end.
  all: match goal with Hv : use_var_bptt a = _ |- _ => rewrite ?Hv end.
  all: split; reflexivity.
Qed.

Lemma train_run_length (cur : F) (loader : list (list Row * list Row)) :
  forall m : Mdl, length (snd (train_run a cur m loader)) = length loader.
Proof.
  induction loader as [|b rest IH]; intros m; simpl; [reflexivity|].
  f_equal. apply IH.
Qed.

Lemma train_run_rate (c1 c2 : F) (loader : list (list Row * list Row)) :
  use_var_bptt a = true \/ c1 = c2 ->
  forall m : Mdl, train_run a c1 m loader = train_run a c2 m loader.
Proof.
  intros Hc. induction loader as [|b rest IH]; intros m; [reflexivity|].
  cbn [train_run].
  assert (window_rate a (fst b) c1 = window_rate a (fst b) c2) as ->.
  { unfold window_rate. destruct Hc as [-> | ->]; reflexivity. }
  rewrite IH. reflexivity.
Qed.

Lemma train_loop_model_wp (loader : list (list Row * list Row)) :
  forall (acc : F) (w0 : world F Row Mdl),
  wp (for_acc (fun train_loss batch =>
                 (do v <- train_batch a batch ;;
                  ret (fadd train_loss v))%prog)
              acc loader)
     (fun acc' w' =>
        mdl w' = fst (train_run a (opt_lr w0) (mdl w0) loader) /\
        acc' = fold_left fadd (snd (train_run a (opt_lr w0) (mdl w0) loader))
                         acc)
     (fun _ _ => True) w0.
Proof.
  induction loader as [|b rest IH]; intros acc w0.
  - apply wp_ret. split; reflexivity.
  - simpl for_acc. apply wp_bind, wp_bind.
    eapply wp_mono; [apply train_batch_model_wp | | auto].
    intros v w1 [Hm Hlr]. apply wp_ret.
    eapply wp_mono; [apply IH | | auto].
    intros acc' w2 [Hm2 Hacc].
    cbn [train_run fst snd]. rewrite <- Hm. cbn [fst snd fold_left].
    rewrite (train_run_rate (opt_lr w0) (opt_lr w1)); [auto|].
    rewrite Hlr. destruct (use_var_bptt a); auto.
Qed.

Lemma train_pass_model_wp (loader : list (list Row * list Row))
      (w0 : world F Row Mdl) :
  wp (train_pass a loader)
     (fun v w' =>
        mdl w' = fst (train_run a (opt_lr w0) (train_start (mdl w0)) loader) /\
        v = mean_of (snd (train_run a (opt_lr w0) (train_start (mdl w0))
                                    loader)))
     (fun _ _ => True) w0.
Proof.
  destruct w0 as [lr0 m0 h0 bl be tls vls ck csv txt tr sg].
  unfold train_pass.
  wp_run.
  all: try exact I.
  eapply wp_mono; [apply train_loop_model_wp | | auto].
  intros acc' [lr1 m1 h1 bl1 be1 tls1 vls1 ck1 csv1 txt1 tr1 sg1] [Hm Hacc].
  wsimpl. subst.
  wp_run.
  all: try exact I.
  split; [reflexivity|].
  unfold mean_of, fsum, len. rewrite train_run_length. reflexivity.
Qed.

Lemma epoch_model_wp (train_loader valid_loader : list (list Row * list Row))
      (e : Z) (w0 : world F Row Mdl) :
  wp (epoch a train_loader valid_loader e)
     (fun _ w' =>
        mdl w' =
        fst (eval_run
               (eval_start
                  (fst (train_run a (opt_lr w0) (train_start (mdl w0))
                                  train_loader)))
               valid_loader))
     (fun _ _ => True) w0.
Proof.
  unfold epoch. apply wp_bind.
  eapply wp_mono; [apply train_pass_model_wp | | auto].
  intros tv w1 [Hm _]. apply wp_bind.
  eapply wp_mono; [apply eval_pass_wp | | auto].
  intros v [lr2 m2 h2 bl2 be2 tls2 vls2 ck2 csv2 txt2 tr2 sg2]
         (_ & _ & Hm2 & _).
  cbn [mdl] in Hm2. rewrite Hm in Hm2. subst m2.
  wp_run.
  all: try exact I.
  all: reflexivity.
Qed.

End ModelThreading.

(** * The script, property by property *)

Section TrainingWindow.
Context {F Row Out Hidden Mdl : Type}.
Context `{FloatOps F} `{Torch F Row Out Hidden Mdl}.
Variable a : args F.

(** C1.  In variable-length BPTT mode, a training window whose input has
    [L] rows runs its optimizer step at the rate [lr * L / bptt] (set at
    line 116, before the forward call), and the next write of the rate,
    right after the step, restores [lr].  The window is one that the
    script processes to its end: [bptt] is then not zero. *)
Theorem C1_rate_scaled_then_restored
        (x y : list Row) (w : world F Row Mdl) (v : F) :
  use_var_bptt a = true ->
  fst (train_batch a (x, y) w) = Ok v ->
  let w' := snd (train_batch a (x, y) w) in
  let rate := int_truediv (lr a * len x) (bptt a) in
  bptt a <> 0 /\
  (exists loss,
      trace w' = trace w ++
                 [ESetLR rate; EForward x true true; EZeroGrad;
                  EBackward loss; EClipGrad (clip a);
                  EOptStep rate; ESetLR (of_int (lr a))]) /\
  opt_lr w' = of_int (lr a).
Proof.
  intros Hvar Hok. pose proof (train_batch_wp a (x, y) w) as Hwp.
  apply wp_unfold in Hwp.
  destruct (train_batch a (x, y) w) as [[v'|e] w']; [|discriminate].
  destruct Hwp as (d & t & _ & _ & _ & Htr & Hlr & Hb & _).
  cbn [fst snd] in *.
  unfold train_batch_events, window_rate in Htr. rewrite Hvar in Htr, Hlr.
  split; [exact (Hb Hvar)|].
  split; [exists v'; exact Htr | exact Hlr].
Qed.

(** C2.  The loss on which [backward()] is called in a training window
    is the cross-entropy of the logits against the targets, plus alpha
    times the mean of the squares of the dropped output of the last
    layer, plus beta times the mean of the squared differences between
    consecutive time steps of the raw output of the last layer; of the
    two lists of per-layer outputs only the last elements are read. *)
Theorem C2_loss_is_ce_plus_ar_plus_tar
        (x y : list Row) (w : world F Row Mdl) (v : F) :
  fst (train_batch a (x, y) w) = Ok v ->
  let w' := snd (train_batch a (x, y) w) in
  let st := snd (model_call_states (mdl w) x) in
  exists dropped raw,
    last (st_dropped_out st) = Some dropped /\
    last (st_raw_out st) = Some raw /\
    backward_losses (trace w') =
    backward_losses (trace w) ++
    [fadd (fadd (criterion (st_out st) y)
                (fmul (alpha a) (mean_of_squares dropped)))
          (fmul (beta a) (mean_sq_consecutive_diff raw))].
Proof.
  intros Hok. pose proof (train_batch_wp a (x, y) w) as Hwp.
  apply wp_unfold in Hwp.
  destruct (train_batch a (x, y) w) as [[v'|e] w']; [|discriminate].
  destruct Hwp as (d & t & Hd & Ht & Hv & Htr & _).
  cbn [fst snd] in *.
  exists d, t. split; [exact Hd|]. split; [exact Ht|].
  rewrite Htr. unfold backward_losses. rewrite flat_map_app. f_equal.
  rewrite Hv. unfold batch_loss, train_batch_events.
  rewrite ar_term_spec, tar_term_spec.
  destruct (use_var_bptt a); reflexivity.
Qed.

(** C3.  An epoch that runs to its end appends its validation loss [v]
    to the history and compares it with the best loss so far (the
    running strict minimum of the history, from [np.inf]).  When [v] is
    strictly lower, the model is saved once, the best loss and epoch are
    recorded and the rate is kept; otherwise nothing is saved, the
    checkpoint file and the best loss and epoch are untouched, and the
    rate is divided by the anneal factor in fixed-length mode only. *)
Theorem C3_checkpoint_iff_improved
        (train_loader valid_loader : list (list Row * list Row))
        (e : Z) (w : world F Row Mdl) :
  fst (epoch a train_loader valid_loader e w) = Ok tt ->
  let w' := snd (epoch a train_loader valid_loader e w) in
  exists v evs,
    valid_losses w' = valid_losses w ++ [v] /\
    trace w' = trace w ++ evs /\
    List.filter is_checkpoint evs =
      (if flt v (best_loss w) then [ESaveCheckpoint e] else []) /\
    (if flt v (best_loss w)
     then ckpt_file w' = Some (mdl w') /\
          best_loss w' = v /\ best_epoch w' = e /\
          (use_var_bptt a = false -> opt_lr w' = opt_lr w)
     else ckpt_file w' = ckpt_file w /\
          best_loss w' = best_loss w /\ best_epoch w' = best_epoch w /\
          (use_var_bptt a = false ->
           opt_lr w' = fdiv (opt_lr w) (anneal_factor a))) /\
    (use_var_bptt a = true -> opt_lr w = of_int (lr a) ->
     opt_lr w' = of_int (lr a)) /\
    (best_loss w = running_best (valid_losses w) ->
     best_loss w' = running_best (valid_losses w')).
Proof.
  intros Hok.
  pose proof (epoch_wp a train_loader valid_loader e w) as Hwp.
  apply wp_unfold in Hwp.
  destruct (epoch a train_loader valid_loader e w) as [[u|e'] w'];
    [|discriminate].
  destruct Hwp as (tv & v & evs & _ & Hv & _ & _ & _ & Htr & _ & _ & Hck
                   & Hvar & Hbest).
  cbn [fst snd] in *.
  exists v, evs. split; [exact Hv|]. split; [exact Htr|].
  split; [exact Hck|].
  split.
  { destruct (flt v (best_loss w)); intuition. }
  split; [exact Hvar|].
  intros Hrun. rewrite Hv, running_best_snoc, <- Hrun.
  destruct (flt v (best_loss w)); tauto.
Qed.

End TrainingWindow.

(** A window of two rows with a base length of two: the step runs at
    30 * 2 / 2 and the rate is 30 afterwards. *)
Lemma C1_rate_scaled_then_restored_witness :
  use_var_bptt (Demo.demo_args true) = true /\
  fst (train_batch (Demo.demo_args true) ([1; 2], [2; 3])
                   (Demo.demo_world true None)) = Ok (Demo.Fin 16) /\
  opt_lr (snd (train_batch (Demo.demo_args true) ([1; 2], [2; 3])
                           (Demo.demo_world true None)))
  = Demo.Fin 30.
Proof.
  assert (fst (train_batch (Demo.demo_args true) ([1; 2], [2; 3])
                           (Demo.demo_world true None)) = Ok (Demo.Fin 16))
    as Hok by (vm_compute; reflexivity).
  split; [reflexivity|]. split; [exact Hok|].
  destruct (C1_rate_scaled_then_restored
              (Demo.demo_args true) [1; 2] [2; 3]
              (Demo.demo_world true None) (Demo.Fin 16)
              eq_refl Hok) as (_ & _ & Hlr).
  exact Hlr.
Defined.

(** On the same window the loss is 10 + 2 * 1 + 1 * 4. *)
Lemma C2_loss_is_ce_plus_ar_plus_tar_witness :
  fst (train_batch (Demo.demo_args true) ([1; 2], [2; 3])
                   (Demo.demo_world true None)) = Ok (Demo.Fin 16) /\
  backward_losses
    (trace (snd (train_batch (Demo.demo_args true) ([1; 2], [2; 3])
                             (Demo.demo_world true None))))
  = [Demo.Fin 16].
Proof.
  assert (fst (train_batch (Demo.demo_args true) ([1; 2], [2; 3])
                           (Demo.demo_world true None)) = Ok (Demo.Fin 16))
    as Hok by (vm_compute; reflexivity).
  split; [exact Hok|].
  destruct (C2_loss_is_ce_plus_ar_plus_tar
              (Demo.demo_args true) [1; 2] [2; 3]
              (Demo.demo_world true None) (Demo.Fin 16) Hok)
    as (dropped & raw & Hd & Hr & Hl).
  injection Hd as <-. injection Hr as <-. exact Hl.
Defined.

(** The first epoch of a run: its validation loss is compared with
    [np.inf]. *)
Lemma C3_checkpoint_iff_improved_witness :
  fst (epoch (Demo.demo_args false) Demo.demo_train Demo.demo_valid 1
             (Demo.demo_world false None)) = Ok tt /\
  exists (v : Demo.xq) (evs : list (event Demo.xq Z)),
    valid_losses (snd (epoch (Demo.demo_args false) Demo.demo_train
                             Demo.demo_valid 1 (Demo.demo_world false None)))
    = [v] /\
    List.filter is_checkpoint evs =
      (if flt v Demo.Inf then [ESaveCheckpoint 1] else []).
Proof.
  assert (fst (epoch (Demo.demo_args false) Demo.demo_train Demo.demo_valid 1
                     (Demo.demo_world false None)) = Ok tt)
    as Hok by (vm_compute; reflexivity).
  split; [exact Hok|].
  destruct (C3_checkpoint_iff_improved
              (Demo.demo_args false) Demo.demo_train Demo.demo_valid 1
              (Demo.demo_world false None) Hok)
    as (v & evs & Hv & _ & Hck & _).
  exists v, evs. split; [exact Hv | exact Hck].
Defined.

Section WholeRun.
Context {F Row Out Hidden Mdl : Type}.
Context `{FloatOps F} `{Torch F Row Out Hidden Mdl}.
Variable a : args F.
Variables train_loader valid_loader test_loader : list (list Row * list Row).

Lemma py_range_length (lo hi : Z) :
  length (py_range lo hi) = Z.to_nat (hi - lo).
Proof. unfold py_range. rewrite length_map, length_seq. reflexivity. Qed.

Lemma eval_event_no_rate (evs : list (event F Row)) :
  forallb is_eval_event evs = true -> List.filter is_rate_event evs = [].
Proof.
  induction evs as [|e evs IH]; simpl; [auto|].
  intros Hf. apply andb_true_iff in Hf as [He Hf].
  destruct e; simpl in *; try discriminate; auto.
Qed.

Lemma epochs_consistent_wp (es : list Z) :
  forall w0 : world F Row Mdl,
  state_consistent a w0 ->
  wp (for_each (epoch a train_loader valid_loader) es)
     (fun _ w' => state_consistent a w') (fun _ _ => True) w0.
Proof.
  induction es as [|e es IH]; intros w0 Hc; [exact Hc|].
  simpl for_each. apply wp_bind.
  eapply wp_mono; [apply epoch_wp | | auto].
  intros _ w1 (tv & v & evs & Ht & Hv & _ & _ & _ & _ & _ & _ & _
               & Hvar & Hbest).
  apply IH. destruct Hc as (Hlen & Hrun & Hck & Hrate).
  split; [rewrite Ht, Hv, !length_app, Hlen; reflexivity|].
  split.
  { rewrite Hv, running_best_snoc, <- Hrun.
    destruct (flt v (best_loss w0)); tauto. }
  split.
  { destruct (flt v (best_loss w0)).
    - destruct Hbest as (_ & _ & Hsome & _). rewrite Hsome. discriminate.
    - destruct Hbest as (Hbl & Hbe & Hsame & _).
      rewrite Hbl, Hbe, Hsame. exact Hck. }
  intros Hv'. apply Hvar; auto.
Qed.

(** C5, amended.  From a consistent state, an epoch loop that ends
    normally leaves a consistent state.  When KeyboardInterrupt comes out
    of the loop, the handler hands the world of that moment, unchanged, to
    the statements after the loop: no further epoch runs, the pending
    interrupt is consumed, the histories, the checkpoint file and the
    rate stay as the interrupt left them, and the test pass is computed
    from the model in memory at the interrupt (the checkpoint file is not
    read).  Of the consistency of the state at the interrupt only this is
    kept: the training history is as long as the validation history, or
    longer by one. *)
Theorem C5_interrupt_goes_to_test_evaluation (w0 : world F Row Mdl) :
  state_consistent a w0 ->
  let w1 := snd (epoch_loop a train_loader valid_loader w0) in
  let r := script a train_loader valid_loader test_loader w0 in
  (fst (epoch_loop a train_loader valid_loader w0) = Ok tt ->
   state_consistent a w1) /\
  (fst (epoch_loop a train_loader valid_loader w0) = Raise KeyboardInterrupt ->
   r = after_loop test_loader w1 /\
   sigint w1 = None /\
   (length (train_losses w1) = length (valid_losses w1) \/
    length (train_losses w1) = S (length (valid_losses w1))) /\
   train_losses (snd r) = train_losses w1 /\
   valid_losses (snd r) = valid_losses w1 /\
   ckpt_file (snd r) = ckpt_file w1 /\
   opt_lr (snd r) = opt_lr w1 /\
   (test_loader <> [] ->
    mdl (snd r) = fst (eval_run (eval_start (mdl w1)) test_loader) /\
    trace (snd r) =
      trace w1 ++ EModelEval :: EResetHidden :: eval_forwards test_loader /\
    (fst r = Ok tt ->
     txt_file (snd r) =
       Some (best_loss w1, best_epoch w1,
             mean_of (snd (eval_run (eval_start (mdl w1)) test_loader)))))).
Proof.
  intros Hc w1 r. subst r w1. split.
  { intros Hok.
    pose proof (epochs_consistent_wp (py_range 1 (epochs a + 1)) w0 Hc)
      as Hwp.
    apply wp_unfold in Hwp.
    fold (epoch_loop a train_loader valid_loader) in Hwp.
    destruct (epoch_loop a train_loader valid_loader w0) as [[u|e] w1];
      [exact Hwp | discriminate]. }
  intros Hki.
  rewrite script_cases.
  pose proof (epochs_wp a train_loader valid_loader
                        (py_range 1 (epochs a + 1)) w0) as Hloop.
  apply wp_unfold in Hloop. fold (epoch_loop a train_loader valid_loader) in Hloop.
  destruct (epoch_loop a train_loader valid_loader w0) as [[u|e] w1];
    [discriminate|].
  cbn [fst snd] in *. injection Hki as ->.
  destruct Hloop as (_ & _ & [_ Hsig] & _ & n & Hn1 & Hn2).
  specialize (Hsig eq_refl).
  destruct Hc as (Hlen & _).
  split; [reflexivity|]. split; [exact Hsig|].
  split; [lia|].
  pose proof (after_loop_wp test_loader w1) as Hpost.
  apply wp_unfold in Hpost.
  destruct (after_loop test_loader w1) as [[u|e] w2]; cbn [fst snd].
  - destruct Hpost as (_ & _ & _ & Htxt & Hm & Htr & Htl & Hvl & Hck & Hlr & _).
    auto 10.
  - destruct Hpost as (_ & Htl & Hvl & Hck & Hlr & _ & _ & _ & Hval & Hnone).
    split_all; auto.
    intros Hne. destruct (Hnone Hsig) as [[_ Hnil] | ->]; [contradiction|].
    destruct (Hval eq_refl) as (_ & _ & _ & Hm & Htr).
    split_all; auto. discriminate.
Qed.

(** C7.  In every run, interrupted or not, the calls on the model follow
    the discipline of the passes: a forward call is preceded, since the
    last [model.train()] or [model.eval()], by one [reset_hidden()], made
    right after that mode switch, and no [reset_hidden()] is made between
    two windows.  In a run that is not interrupted and ends normally the
    calls that open passes are, in order, those of a training pass and of
    a validation pass for each epoch, then those of the test pass: the
    hidden state is reset once at the start of each.  Within a pass the
    model object, which holds the hidden state, goes from window to
    window: the model a pass ends with is the model reset at its start
    and then handed, by each window, to the next, as [train_run] and
    [eval_run] compute it; and an epoch hands the model of its training
    pass to its validation pass. *)
Theorem C7_hidden_state_reset_once_per_pass (m : Mdl) (sig : option nat) :
  let r := script a train_loader valid_loader test_loader
                  (init_world a m sig) in
  pass_monitor Idle (trace (snd r)) <> None /\
  (sig = None -> fst r = Ok tt ->
   List.filter is_pass_event (trace (snd r)) =
   concat (repeat epoch_passes (Z.to_nat (epochs a)))
   ++ [EModelEval; EResetHidden]) /\
  (forall (loader : list (list Row * list Row)) (w : world F Row Mdl) v,
      fst (train_pass a loader w) = Ok v ->
      mdl (snd (train_pass a loader w)) =
      fst (train_run a (opt_lr w) (train_start (mdl w)) loader)) /\
  (forall (loader : list (list Row * list Row)) (w : world F Row Mdl) v,
      fst (eval_pass loader w) = Ok v ->
      mdl (snd (eval_pass loader w)) =
      fst (eval_run (eval_start (mdl w)) loader)) /\
  (forall (e : Z) (w : world F Row Mdl),
      fst (epoch a train_loader valid_loader e w) = Ok tt ->
      mdl (snd (epoch a train_loader valid_loader e w)) =
      fst (eval_run
             (eval_start
                (fst (train_run a (opt_lr w) (train_start (mdl w))
                                train_loader)))
             valid_loader)).
Proof.
  intros r. subst r.
  assert ((forall (loader : list (list Row * list Row))
                  (w : world F Row Mdl) v,
              fst (train_pass a loader w) = Ok v ->
              mdl (snd (train_pass a loader w)) =
              fst (train_run a (opt_lr w) (train_start (mdl w)) loader)) /\
          (forall (loader : list (list Row * list Row))
                  (w : world F Row Mdl) v,
              fst (eval_pass loader w) = Ok v ->
              mdl (snd (eval_pass loader w)) =
              fst (eval_run (eval_start (mdl w)) loader)) /\
          (forall (e : Z) (w : world F Row Mdl),
              fst (epoch a train_loader valid_loader e w) = Ok tt ->
              mdl (snd (epoch a train_loader valid_loader e w)) =
              fst (eval_run
                     (eval_start
                        (fst (train_run a (opt_lr w) (train_start (mdl w))
                                        train_loader)))
                     valid_loader))) as Hthread.
  { split; [|split].
    - intros loader w v Hok.
      pose proof (train_pass_model_wp a loader w) as Hwp.
      apply wp_unfold in Hwp.
      destruct (train_pass a loader w) as [[v'|e] w']; [|discriminate].
      exact (proj1 Hwp).
    - intros loader w v Hok.
      pose proof (eval_pass_wp loader w) as Hwp.
      apply wp_unfold in Hwp.
      destruct (eval_pass loader w) as [[v'|e] w']; [|discriminate].
      destruct Hwp as (_ & _ & Hm & _). exact Hm.
    - intros e w Hok.
      pose proof (epoch_model_wp a train_loader valid_loader e w) as Hwp.
      apply wp_unfold in Hwp.
      destruct (epoch a train_loader valid_loader e w) as [[u|e'] w'];
        [|discriminate].
      exact Hwp. }
  cut (let r := script a train_loader valid_loader test_loader
                       (init_world a m sig) in
       pass_monitor Idle (trace (snd r)) <> None /\
       (sig = None -> fst r = Ok tt ->
        List.filter is_pass_event (trace (snd r)) =
        concat (repeat epoch_passes (Z.to_nat (epochs a)))
        ++ [EModelEval; EResetHidden])).
  { intros [Hmon Hpass]. auto. }
  intros r. subst r. rewrite script_cases.
  pose proof (epochs_wp a train_loader valid_loader
                        (py_range 1 (epochs a + 1)) (init_world a m sig))
    as Hloop.
  apply wp_unfold in Hloop.
  fold (epoch_loop a train_loader valid_loader) in Hloop.
  assert (forall w1 : world F Row Mdl,
             (exists evs, trace w1 = [] ++ evs /\ accepted evs) ->
             let r := after_loop test_loader w1 in
             pass_monitor Idle (trace (snd r)) <> None /\
             (fst r = Ok tt ->
              List.filter is_pass_event (trace (snd r)) =
              List.filter is_pass_event (trace w1)
              ++ [EModelEval; EResetHidden])) as Hafter.
  { intros w1 (evs & Htr1 & Hacc) r. subst r. simpl in Htr1.
    pose proof (after_loop_wp test_loader w1) as Hpost.
    apply wp_unfold in Hpost.
    destruct (after_loop test_loader w1) as [[u|e] w2]; cbn [fst snd].
    - destruct Hpost as (_ & _ & _ & _ & _ & Htr & _).
      rewrite Htr. split.
      + rewrite Htr1. apply accepted_app; [exact Hacc|].
        apply accepted_pass; [right; reflexivity|].
        apply no_grad_forward_window, eval_forwards_ok.
      + intros _. rewrite List.filter_app. f_equal.
        cbn [List.filter is_pass_event].
        rewrite window_no_pass; [reflexivity|].
        apply no_grad_forward_window, eval_forwards_ok.
    - destruct Hpost as (_ & _ & _ & _ & _ & (evs2 & Htr & Hpre & _) & _).
      rewrite Htr. split; [|discriminate].
      rewrite Htr1. apply accepted_app; [exact Hacc|].
      eapply accepted_prefix; [right; reflexivity | exact Hpre]. }
  destruct (epoch_loop a train_loader valid_loader (init_world a m sig))
    as [[u|e] w1].
  - destruct Hloop as (_ & _ & _ & _ & _ & (evs & Htr & Hacc & Hpass) & _).
    destruct (Hafter w1) as [Hmon Hfil]; [eauto|].
    split; [exact Hmon|]. intros _ Hok. rewrite (Hfil Hok).
    simpl in Htr. rewrite Htr, Hpass, py_range_length.
    do 3 f_equal. lia.
  - destruct Hloop as (_ & _ & Hsig & (evs & Htr & Hacc) & _).
    destruct e;
      try solve [cbn [fst snd]; (split; [|discriminate]);
                 rewrite Htr; apply Hacc].
    destruct (Hafter w1) as [Hmon Hfil]; [eauto|].
    split; [exact Hmon|]. intros -> _.
    destruct Hsig as [Hsig _]. destruct (Hsig eq_refl) as [_ Hne].
    congruence.
Qed.

(** C10.  The CSV file is written only when the two histories have the
    same length.  When KeyboardInterrupt comes out of the epoch loop the
    training history is as long as the validation history or longer by
    one; in the second case (the interrupt fell between the two appends
    of an epoch) the test pass is still run, then the construction of
    the DataFrame raises ValueError, which nothing catches: neither the
    CSV file nor the summary file is written. *)
Theorem C10_csv_needs_equal_histories (m : Mdl) (sig : option nat) :
  let w0 := init_world a m sig in
  let r := script a train_loader valid_loader test_loader w0 in
  (csv_file (snd r) <> None ->
   length (train_losses (snd r)) = length (valid_losses (snd r))) /\
  (fst (epoch_loop a train_loader valid_loader w0)
   = Raise KeyboardInterrupt ->
   let w1 := snd (epoch_loop a train_loader valid_loader w0) in
   (length (train_losses w1) = length (valid_losses w1) \/
    length (train_losses w1) = S (length (valid_losses w1))) /\
   (length (train_losses w1) = S (length (valid_losses w1)) ->
    test_loader <> [] ->
    fst r = Raise ValueError /\
    csv_file (snd r) = None /\ txt_file (snd r) = None /\
    trace (snd r) =
      trace w1 ++ EModelEval :: EResetHidden :: eval_forwards test_loader)).
Proof.
  intros w0 r. subst r w0. rewrite script_cases.
  pose proof (epochs_wp a train_loader valid_loader
                        (py_range 1 (epochs a + 1)) (init_world a m sig))
    as Hloop.
  apply wp_unfold in Hloop.
  fold (epoch_loop a train_loader valid_loader) in Hloop.
  destruct (epoch_loop a train_loader valid_loader (init_world a m sig))
    as [[u|e] w1]; cbn [fst snd].
  - split; [|discriminate].
    destruct Hloop as (Htl & Hvl & Hcsv & _).
    pose proof (after_loop_wp test_loader w1) as Hpost.
    apply wp_unfold in Hpost.
    destruct (after_loop test_loader w1) as [[u'|e] w2]; cbn [fst snd].
    + destruct Hpost as (_ & Hlen & _ & _ & _ & _ & Htl2 & Hvl2 & _).
      intros _. rewrite Htl2, Hvl2. exact Hlen.
    + destruct Hpost as (_ & Htl2 & Hvl2 & _).
      intros _. rewrite Htl2, Hvl2, Htl, Hvl. reflexivity.
  - destruct Hloop as (Hcsv & Htxt & Hsig & _ & n & Htl & Hvl).
    simpl in Hcsv, Htxt, Htl, Hvl.
    destruct e; cbn [fst snd];
      try (split; [rewrite Hcsv; intros Hne; congruence | discriminate]).
    pose proof (after_loop_wp test_loader w1) as Hpost.
    apply wp_unfold in Hpost.
    destruct Hsig as [_ Hsig]. specialize (Hsig eq_refl).
    destruct (after_loop test_loader w1) as [[u'|e] w2]; cbn [fst snd].
    + destruct Hpost as (_ & Hlen & _ & _ & _ & _ & Htl2 & Hvl2 & _).
      split; [intros _; rewrite Htl2, Hvl2; exact Hlen|].
      intros _. split; [lia|]. intros Hs. lia.
    + destruct Hpost as (Htxt2 & Htl2 & Hvl2 & _ & _ & _ & _ & Hcsv2
                         & Hval & Hnone).
      split.
      * intros Hne. rewrite Htl2, Hvl2.
        destruct Hcsv2 as [Hc | Hl]; [|exact Hl]. congruence.
      * intros _. split; [lia|]. intros Hs Hne.
        destruct (Hnone Hsig) as [[_ Hnil] | ->]; [contradiction|].
        destruct (Hval eq_refl) as (_ & _ & Hc & _ & Htr).
        split_all; congruence.
Qed.

End WholeRun.

(** C5, as the specification words it, fails.  In the example run a
    Ctrl-C at the 39th interruptible point falls between lines 161 and
    162: the best loss is 8 while the best epoch is still 0 and no
    checkpoint exists, and the summary reports them so.  In variable
    mode a Ctrl-C at the 6th interruptible point of a run whose first
    window has four rows falls after the forward call: the rate is left
    at 60, not at 30. *)
Lemma C5_interrupt_state_counterexample :
  ~ interrupt_keeps_state_consistent
      (Demo.demo_args false) Demo.demo_train Demo.demo_valid 0 /\
  ~ interrupt_keeps_state_consistent
      (Demo.demo_args true) Demo.demo_long Demo.demo_valid 0 /\
  (let r := script (Demo.demo_args false) Demo.demo_train Demo.demo_valid
                   Demo.demo_test (Demo.demo_world false (Some 38%nat)) in
   fst r = Ok tt /\
   txt_file (snd r) = Some (Demo.Fin 8, 0, Demo.Fin 8) /\
   ckpt_file (snd r) = None).
Proof.
  split; [|split].
  - intros Hkeep.
    destruct (Hkeep (Some 38%nat)) as (_ & _ & Hck & _);
      [vm_compute; reflexivity|].
    destruct Hck as [Hbest _]; [vm_compute; reflexivity|].
    vm_compute in Hbest. discriminate Hbest.
  - intros Hkeep.
    destruct (Hkeep (Some 5%nat)) as (_ & _ & _ & Hrate);
      [vm_compute; reflexivity|].
    specialize (Hrate eq_refl). vm_compute in Hrate. discriminate Hrate.
  - vm_compute. auto.
Qed.

(** A Ctrl-C at the 39th interruptible point of the example run: the test
    pass runs on the model of the interrupt. *)
Lemma C5_interrupt_goes_to_test_evaluation_witness :
  state_consistent (Demo.demo_args false)
                   (Demo.demo_world false (Some 38%nat)) /\
  fst (epoch_loop (Demo.demo_args false) Demo.demo_train Demo.demo_valid
                  (Demo.demo_world false (Some 38%nat)))
  = Raise KeyboardInterrupt /\
  mdl (snd (script (Demo.demo_args false) Demo.demo_train Demo.demo_valid
                   Demo.demo_test (Demo.demo_world false (Some 38%nat))))
  = fst (eval_run
           (eval_start
              (mdl (snd (epoch_loop (Demo.demo_args false) Demo.demo_train
                                    Demo.demo_valid
                                    (Demo.demo_world false (Some 38%nat))))))
           Demo.demo_test).
Proof.
  assert (state_consistent (Demo.demo_args false)
                           (Demo.demo_world false (Some 38%nat))) as Hc.
  { split; [reflexivity|]. split; [reflexivity|].
    split; [intros _; split; reflexivity | discriminate]. }
  assert (fst (epoch_loop (Demo.demo_args false) Demo.demo_train
                          Demo.demo_valid
                          (Demo.demo_world false (Some 38%nat)))
          = Raise KeyboardInterrupt) as Hki by (vm_compute; reflexivity).
  split; [exact Hc|]. split; [exact Hki|].
  destruct (C5_interrupt_goes_to_test_evaluation
              (Demo.demo_args false) Demo.demo_train Demo.demo_valid
              Demo.demo_test (Demo.demo_world false (Some 38%nat)) Hc)
    as [_ Hint].
  destruct (Hint Hki) as (_ & _ & _ & _ & _ & _ & _ & Htest).
  destruct Htest as (Hm & _); [discriminate | exact Hm].
Defined.

(** Two epochs, without interrupt: five passes, five resets; and the model
    that counts its optimizer steps has counted the two windows of a
    training pass when the pass ends. *)
Lemma C7_hidden_state_reset_once_per_pass_witness :
  List.filter is_pass_event
    (trace (snd (script (Demo.demo_args false) Demo.demo_train
                        Demo.demo_valid Demo.demo_test
                        (Demo.demo_world false None))))
  = [EModelTrain; EResetHidden; EModelEval; EResetHidden;
     EModelTrain; EResetHidden; EModelEval; EResetHidden;
     EModelEval; EResetHidden] /\
  mdl (snd (train_pass (Demo.demo_args false) Demo.demo_train
                       (Demo.demo_world false None))) = 2.
Proof.
  destruct (C7_hidden_state_reset_once_per_pass
              (Demo.demo_args false) Demo.demo_train Demo.demo_valid
              Demo.demo_test 0 None) as (_ & Hpass & Htrain & _).
  split.
  - apply Hpass; [reflexivity | vm_compute; reflexivity].
  - assert (fst (train_pass (Demo.demo_args false) Demo.demo_train
                            (Demo.demo_world false None))
            = Ok (Demo.Fin (31 # 2))) as Hok by (vm_compute; reflexivity).
    exact (Htrain _ _ _ Hok).
Defined.

(** A Ctrl-C at the 30th interruptible point falls right after the first
    [train_losses.append]. *)
Lemma C10_csv_needs_equal_histories_witness :
  fst (epoch_loop (Demo.demo_args false) Demo.demo_train Demo.demo_valid
                  (Demo.demo_world false (Some 29%nat)))
  = Raise KeyboardInterrupt /\
  fst (script (Demo.demo_args false) Demo.demo_train Demo.demo_valid
              Demo.demo_test (Demo.demo_world false (Some 29%nat)))
  = Raise ValueError /\
  csv_file (snd (script (Demo.demo_args false) Demo.demo_train
                        Demo.demo_valid Demo.demo_test
                        (Demo.demo_world false (Some 29%nat)))) = None.
Proof.
  assert (fst (epoch_loop (Demo.demo_args false) Demo.demo_train
                          Demo.demo_valid
                          (Demo.demo_world false (Some 29%nat)))
          = Raise KeyboardInterrupt) as Hki by (vm_compute; reflexivity).
  split; [exact Hki|].
  destruct (C10_csv_needs_equal_histories
              (Demo.demo_args false) Demo.demo_train Demo.demo_valid
              Demo.demo_test 0 (Some 29%nat)) as [_ Hint].
  destruct (Hint Hki) as [_ Hbetween].
  destruct Hbetween as (Hr & Hcsv & _);
    [vm_compute; reflexivity | discriminate |].
  split; [exact Hr | exact Hcsv].
Defined.

(** ** The batcher and the loaders *)

(** C4, as the specification words it, fails: on a stream of eight tokens,
    with every drawn length equal to 5, the batcher yields a window of five
    tokens and a window of two; their inputs are the first seven tokens,
    not the stream, and the second window is shorter than the minimum. *)
Lemma C4_whole_stream_counterexample :
  ~ covers_whole_stream Demo.demo_stream 5 true (fun _ => 5).
Proof.
  intros (ws & Hb & Hc & _). vm_compute in Hb.
  injection Hb as <-. discriminate Hc.
Qed.

(** C4, amended.  When the base length is positive (or in variable mode)
    the batcher yields a finite list of windows, in stream order: each
    input is the next slice of the stream and is no longer than the
    remaining stream length, each target is the stream one position later
    and has the length of its input.  The inputs concatenated are the
    stream without its last token, and in standard mode also without the
    token before it when that token alone would make the last window
    (which is then dropped); the targets concatenated are the same tokens
    one position later.  In variable mode no token but the last is left
    out, and every window but the last has at least the minimum
    length. *)
Theorem C4_windows_cover_stream {A : Type}
        (s : list A) (B : Z) (var : bool) (draw : nat -> Z) :
  var = true \/ 0 < B ->
  exists ws,
    batcher s B var draw = Some ws /\
    windows_cover s 0 ws /\
    concat (map fst ws) = slice s 0 (len s - 1 - lost s B var 0) /\
    concat (map snd ws) = slice s 1 (len s - lost s B var 0) /\
    0 <= lost s B var 0 <= 1 /\
    (var = true ->
     concat (map fst ws) = removelast s /\
     concat (map snd ws) = tl s /\
     Forall (fun w => min_len <= len (fst w)) (removelast ws)).
Proof.
  intros Hm.
  destruct (batcher_spec s B var draw Hm)
    as (ws & Hb & Hcov & Hin & Htg & Hfl & _).
  exists ws. split_all; auto; try apply lost_range.
  intros Hv. rewrite Hin, Htg, (lost_var s B var 0 Hv), !Z.sub_0_r.
  split; [apply slice_removelast|]. split; [apply slice_tail | auto].
Qed.

(** The stream of eight tokens, in variable mode with draws of 5: the
    inputs are the first seven tokens.  A stream of four tokens in
    standard mode with a base length of 2: the window that would hold the
    third token alone is dropped, and the inputs are the first two. *)
Lemma C4_windows_cover_stream_witness :
  (true = true \/ 0 < 5) /\
  (exists ws,
      batcher Demo.demo_stream 5 true (fun _ => 5) = Some ws /\
      concat (map fst ws) = [1; 2; 3; 4; 5; 6; 7]) /\
  (exists ws,
      batcher [1; 2; 3; 4] 2 false (fun _ => 5) = Some ws /\
      concat (map fst ws) = [1; 2]).
Proof.
  split; [left; reflexivity|]. split.
  - destruct (C4_windows_cover_stream Demo.demo_stream 5 true (fun _ => 5)
                                      (or_introl eq_refl))
      as (ws & Hb & _ & Hin & _).
    exists ws. split; [exact Hb | exact Hin].
  - assert (0 < 2) as Hpos by reflexivity.
    destruct (C4_windows_cover_stream [1; 2; 3; 4] 2 false (fun _ => 5)
                                      (or_intror Hpos))
      as (ws & Hb & _ & Hin & _).
    exists ws. split; [exact Hb | exact Hin].
Defined.

Section Loaders.
Context {F Tok Row Out Hidden Mdl : Type}.
Context `{FloatOps F} `{Torch F Row Out Hidden Mdl}.
Variable batchify : list Tok -> Z -> list Row.

Lemma fixed_windows_ignore_draws {A} (s : list A) (B : Z)
      (draw draw' : nat -> Z) (fuel : nat) :
  forall t k k',
    windows_from s B false draw fuel t k =
    windows_from s B false draw' fuel t k'.
Proof.
  induction fuel as [|fuel IH]; intros t k k'; simpl; [reflexivity|].
  destruct (remaining s t <? 1); [reflexivity|].
  unfold window_len. cbn [negb].
  destruct (dropped B false (Z.min B (remaining s t))); [reflexivity|].
  rewrite (IH _ (S k) (S k')). reflexivity.
Qed.

(** C9.  The validation and test loaders are built in standard mode,
    whatever [--use_var_bptt] says: for a positive base length they are
    lists of windows of that length (the last one may be shorter), the
    same for every value of the flag and of the random draws.  An
    evaluation pass, however it ends, leaves the learning rate as it
    found it and makes no call that reads or writes it. *)
Theorem C9_evaluation_is_fixed_length_at_constant_rate
        (a : args F) (c : corpus Tok) (draw : nat -> Z) :
  0 < bptt a ->
  (exists vl sl,
      valid_loader batchify a c draw = Some vl /\
      test_loader batchify a c draw = Some sl /\
      base_length_windows (bptt a) vl /\
      base_length_windows (bptt a) sl /\
      forall (a' : args F) (draw' : nat -> Z),
        eval_bs a' = eval_bs a -> bptt a' = bptt a ->
        valid_loader batchify a' c draw' = Some vl /\
        test_loader batchify a' c draw' = Some sl) /\
  forall (loader : list (list Row * list Row)) (w : world F Row Mdl),
    let w' := snd (eval_pass loader w) in
    opt_lr w' = opt_lr w /\
    exists evs, trace w' = trace w ++ evs /\
                List.filter is_rate_event evs = [].
Proof.
  intros HB. split.
  - destruct (batcher_spec (batchify (c_valid c) (eval_bs a)) (bptt a)
                           false draw (or_intror HB))
      as (vl & Hvl & _ & _ & _ & _ & Hvb).
    destruct (batcher_spec (batchify (c_test c) (eval_bs a)) (bptt a)
                           false draw (or_intror HB))
      as (sl & Hsl & _ & _ & _ & _ & Hsb).
    exists vl, sl. unfold valid_loader, test_loader, get_loaders,
                   use_var_bptt_default.
    split; [exact Hvl|]. split; [exact Hsl|].
    split; [exact (Hvb eq_refl)|]. split; [exact (Hsb eq_refl)|].
    intros a' draw' -> ->. unfold batcher in *.
    rewrite (fixed_windows_ignore_draws _ _ draw' draw _ 0 0%nat 0%nat).
    rewrite (fixed_windows_ignore_draws
               (batchify (c_test c) (eval_bs a)) _ draw' draw _ 0 0%nat 0%nat).
    auto.
  - intros loader w w'. subst w'.
    pose proof (eval_pass_wp loader w) as Hwp. apply wp_unfold in Hwp.
    destruct (eval_pass loader w) as [[v|e] w']; cbn [fst snd].
    + destruct Hwp as (_ & _ & _ & Htr & Hlr & _).
      split; [exact Hlr|]. eexists. split; [exact Htr|].
      apply eval_event_no_rate. cbn [forallb is_eval_event].
      apply no_grad_forward_eval, eval_forwards_ok.
    + destruct Hwp as (_ & Hlr & (evs & Htr & _ & Hev) & _).
      split; [exact Hlr|]. exists evs. split; [exact Htr|].
      apply eval_event_no_rate, Hev.
Qed.

End Loaders.

(** The validation loader of a run with [--use_var_bptt]. *)
Lemma C9_evaluation_is_fixed_length_at_constant_rate_witness :
  0 < bptt (Demo.demo_args true) /\
  exists vl,
    valid_loader Demo.one_column (Demo.demo_args true) Demo.demo_corpus
                 (fun _ => 5) = Some vl /\
    base_length_windows 2 vl.
Proof.
  split; [reflexivity|].
  destruct (C9_evaluation_is_fixed_length_at_constant_rate
              Demo.one_column (Demo.demo_args true) Demo.demo_corpus
              (fun _ => 5) eq_refl) as [(vl & sl & Hvl & _ & Hb & _) _].
  exists vl. split; [exact Hvl | exact Hb].
Defined.

(** ** Model construction *)


Section Construction.
Context {F Tok Row Out Hidden Mdl : Type}.
Context `{FloatOps F} `{Torch F Row Out Hidden Mdl}.
Variable batchify : list Tok -> Z -> list Row.


End Construction.


(** ** Reported losses *)

Section Reports.
Context {F Row Out Hidden Mdl : Type}.
Context `{FloatOps F} `{Torch F Row Out Hidden Mdl}.

(** What line 139 adds to [train_loss], for any model and any arithmetic:
    the value of the tensor after the two in-place additions. *)
Lemma train_batch_reports_full_loss
      (a : args F) (x y : list Row) (w : world F Row Mdl) (v : F) :
  fst (train_batch a (x, y) w) = Ok v ->
  let st := snd (model_call_states (mdl w) x) in
  exists dropped raw,
    last (st_dropped_out st) = Some dropped /\
    last (st_raw_out st) = Some raw /\
    v = fadd (fadd (criterion (st_out st) y)
                   (fmul (alpha a) (ar_term dropped)))
             (fmul (beta a) (tar_term raw)).
Proof.
  intros Hok. pose proof (train_batch_wp a (x, y) w) as Hwp.
  apply wp_unfold in Hwp.
  destruct (train_batch a (x, y) w) as [[v'|e] w']; [|discriminate].
  destruct Hwp as (d & t & Hd & Ht & Hv & _).
  cbn [fst snd] in *. injection Hok as <-. exists d, t. auto.
Qed.

(** What a validation or test pass reports: the mean of the criterion
    over its windows, computed by forward calls without gradient and by
    nothing else. *)
Lemma eval_pass_reports_mean_criterion
      (loader : list (list Row * list Row)) (w : world F Row Mdl) (v : F) :
  fst (eval_pass loader w) = Ok v ->
  v = mean_of (snd (eval_run (eval_start (mdl w)) loader)) /\
  trace (snd (eval_pass loader w)) =
  trace w ++ EModelEval :: EResetHidden :: eval_forwards loader.
Proof.
  intros Hok. pose proof (eval_pass_wp loader w) as Hwp.
  apply wp_unfold in Hwp.
  destruct (eval_pass loader w) as [[v'|e] w']; [|discriminate].
  destruct Hwp as (_ & Hv & _ & Htr & _).
  cbn [fst snd] in *. injection Hok as <-. auto.
Qed.

End Reports.


(** C6 fails on the training loss.  [loss = raw_loss] (line 126) gives the
    tensor a second name and [loss += ...] (lines 127, 128) adds in place,
    so [raw_loss.item()] at line 139 is the loss with both penalties.  On
    one window whose cross-entropy is 10, with an AR term of 1 weighted by
    2 and a TAR term of 4 weighted by 1, the epoch reports 16. *)
Theorem C6_train_loss_reports_penalties :
  let w0 := Demo.demo_world false None in
  let window := ([1; 2], [2; 3]) in
  let st := snd (model_call_states (mdl w0) (fst window)) in
  fst (train_pass (Demo.demo_args false) [window] w0) = Ok (Demo.Fin 16) /\
  mean_of [criterion (st_out st) (snd window)] = Demo.Fin 10 /\
  Demo.Fin 16 <> Demo.Fin 10.
Proof.
  split; [vm_compute; reflexivity|].
  split; [vm_compute; reflexivity | discriminate].
Qed.

(** * Further properties of the script *)

(** ** The calls of a training pass *)

Section PassCallsFacts.
Context {F Row Out Hidden Mdl : Type}.
Context `{FloatOps F} `{Torch F Row Out Hidden Mdl}.
Variable a : args F.

Lemma pass_calls_rate (c1 c2 : F) (loader : list (list Row * list Row)) :
  use_var_bptt a = true \/ c1 = c2 ->
  forall ls, pass_calls a c1 loader ls = pass_calls a c2 loader ls.
Proof.
  intros Hc. induction loader as [|b rest IH]; intros ls; [reflexivity|].
  destruct ls as [|l ls]; [reflexivity|]. simpl. rewrite IH. f_equal.
  unfold window_rate. destruct Hc as [-> | ->]; reflexivity.
Qed.

Lemma pass_calls_forwards (cur : F) (loader : list (list Row * list Row)) :
  forall ls, length ls = length loader ->
    forward_inputs (pass_calls a cur loader ls) = map fst loader /\
    backward_losses (pass_calls a cur loader ls) = ls /\
    step_rates (pass_calls a cur loader ls) =
      map (fun b => window_rate a (fst b) cur) loader /\
    clip_norms (pass_calls a cur loader ls) = map (fun _ => clip a) loader.
Proof.
  induction loader as [|b rest IH]; intros [|l ls] Hl; try discriminate;
    [repeat split|].
  injection Hl as Hl. destruct (IH ls Hl) as (Hf & Hb & Hs & Hc).
  unfold forward_inputs, backward_losses, step_rates, clip_norms in *.
  cbn [pass_calls]. rewrite !flat_map_app, Hf, Hb, Hs, Hc.
  unfold train_batch_events.
  destruct (use_var_bptt a); repeat split; reflexivity.
Qed.

Lemma train_loop_calls_wp (loader : list (list Row * list Row)) :
  forall (acc : F) (w0 : world F Row Mdl),
  wp (for_acc (fun train_loss batch =>
                 (do v <- train_batch a batch ;;
                  ret (fadd train_loss v))%prog)
              acc loader)
     (fun acc' w' =>
        exists ls, length ls = length loader /\
                   trace w' = trace w0 ++ pass_calls a (opt_lr w0) loader ls /\
                   acc' = fold_left fadd ls acc)
     (fun _ _ => True) w0.
Proof.
  induction loader as [|b rest IH]; intros acc w0.
  - apply wp_ret. exists []. simpl. rewrite app_nil_r. auto.
  - simpl for_acc. apply wp_bind, wp_bind.
    eapply wp_mono; [apply train_batch_wp | | auto].
    intros v w1 (d & t & _ & _ & _ & Ht & Hlr & _).
    apply wp_ret.
    eapply wp_mono; [apply IH | | auto].
    intros acc' w2 (ls & Hl & Ht2 & Hacc).
    exists (v :: ls). split; [simpl; congruence|].
    split; [|exact Hacc].
    rewrite Ht2, Ht, <- app_assoc. cbn [pass_calls]. do 2 f_equal.
    apply pass_calls_rate. rewrite Hlr.
    destruct (use_var_bptt a); auto.
Qed.

Lemma train_pass_calls_wp (loader : list (list Row * list Row))
      (w0 : world F Row Mdl) :
  wp (train_pass a loader)
     (fun v w' =>
        exists ls, length ls = length loader /\
                   trace w' = trace w0 ++ EModelTrain :: EResetHidden
                                       :: pass_calls a (opt_lr w0) loader ls /\
                   v = mean_of ls)
     (fun _ _ => True) w0.
Proof.
  destruct w0 as [lr0 m0 h0 bl be tls vls ck csv txt tr sg].
  unfold train_pass.
  wp_run.
  all: try exact I.
  eapply wp_mono; [apply train_loop_calls_wp | | auto].
  intros acc' [lr1 m1 h1 bl1 be1 tls1 vls1 ck1 csv1 txt1 tr1 sg1] Hw.
  destruct Hw as (ls & Hl & Htr & Hacc). wsimpl. subst.
  wp_run.
  all: try exact I.
  exists ls. split; [exact Hl|].
  split; [rewrite <- !app_assoc; reflexivity|].
  unfold mean_of, fsum, len. rewrite Hl. reflexivity.
Qed.

(** X1.  A training pass that ends normally has made, for each window of
    the loader and in the order of the loader, one forward call on that
    window's input, one [backward()], one clipping at [args.clip] and one
    optimizer step, at the rate of that window; the train loss it appends
    to the history is the mean of the losses on which [backward()] was
    called. *)
Theorem train_pass_trains_each_window_once
        (loader : list (list Row * list Row)) (w : world F Row Mdl) (v : F) :
  fst (train_pass a loader w) = Ok v ->
  let w' := snd (train_pass a loader w) in
  exists evs,
    trace w' = trace w ++ EModelTrain :: EResetHidden :: evs /\
    forward_inputs evs = map fst loader /\
    step_rates evs = map (fun b => window_rate a (fst b) (opt_lr w)) loader /\
    clip_norms evs = map (fun _ => clip a) loader /\
    length (backward_losses evs) = length loader /\
    v = mean_of (backward_losses evs) /\
    train_losses w' = train_losses w ++ [v].
Proof.
  intros Hok.
  pose proof (train_pass_calls_wp loader w) as Hcalls.
  pose proof (train_pass_wp a loader w) as Hpass.
  apply wp_unfold in Hcalls. apply wp_unfold in Hpass.
  destruct (train_pass a loader w) as [[v'|e] w']; [|discriminate].
  cbn [fst snd] in *. injection Hok as <-.
  destruct Hcalls as (ls & Hl & Htr & Hv).
  destruct Hpass as (_ & _ & Htl & _).
  destruct (pass_calls_forwards (opt_lr w) loader ls Hl) as (Hf & Hb & Hs & Hc).
  exists (pass_calls a (opt_lr w) loader ls).
  rewrite Hb. auto 10.
Qed.

End PassCallsFacts.

(** Two windows at the rate 30: the reported loss is (16 + 15) / 2. *)
Lemma train_pass_trains_each_window_once_witness :
  fst (train_pass (Demo.demo_args false) Demo.demo_train
                  (Demo.demo_world false None)) = Ok (Demo.Fin (31 # 2)) /\
  train_losses (snd (train_pass (Demo.demo_args false) Demo.demo_train
                                (Demo.demo_world false None)))
  = [Demo.Fin (31 # 2)].
Proof.
  assert (fst (train_pass (Demo.demo_args false) Demo.demo_train
                          (Demo.demo_world false None))
          = Ok (Demo.Fin (31 # 2))) as Hok by (vm_compute; reflexivity).
  split; [exact Hok|].
  destruct (train_pass_trains_each_window_once
              (Demo.demo_args false) Demo.demo_train
              (Demo.demo_world false None) (Demo.Fin (31 # 2)) Hok)
    as (evs & _ & _ & _ & _ & _ & _ & Htl).
  exact Htl.
Defined.

(** ** An exception inside a window *)

Section WindowCutShort.
Context {F Row Out Hidden Mdl : Type}.
Context `{FloatOps F} `{Torch F Row Out Hidden Mdl}.
Variable a : args F.

Lemma wp_tick_exact (Q : unit -> world F Row Mdl -> Prop) E w :
  match sigint w with
  | Some O => E KeyboardInterrupt (with_sigint None w)
  | Some (S k) => Q tt (with_sigint (Some k) w)
  | None => Q tt w
  end ->
  wp tick Q E w.
Proof. unfold wp, tick. destruct (sigint w) as [[|k]|]; auto. Qed.

(** X2.  In variable-length mode the rate written at line 116 is restored
    only by line 137: when a window is cut short in between, by a Ctrl-C
    at one of the ten interruptible points from the forward call to the
    restoring statement, or by an exception of a statement before it, the
    window raises and the optimizer is left with the rate scaled to the
    window.  (When the scaled rate is too large for a float, line 116
    itself raises OverflowError and the rate is as it was.) *)
Theorem window_cut_short_leaves_rate_scaled
        (x y : list Row) (w : world F Row Mdl) (j : nat) :
  use_var_bptt a = true -> bptt a <> 0 ->
  sigint w = Some j -> (1 <= j <= 10)%nat ->
  let r := train_batch a (x, y) w in
  if int_truediv_overflows (lr a * len x) (bptt a)
  then fst r = Raise OverflowError /\ opt_lr (snd r) = opt_lr w
  else (exists e, fst r = Raise e /\ e <> ZeroDivisionError /\
                  e <> OverflowError) /\
       opt_lr (snd r) = int_truediv (lr a * len x) (bptt a).
Proof.
  intros Hvar Hb Hsig Hj r. subst r.
  assert (wp (train_batch a (x, y))
             (fun _ _ => False)
             (fun e w' =>
                if int_truediv_overflows (lr a * len x) (bptt a)
                then e = OverflowError /\ opt_lr w' = opt_lr w
                else e <> ZeroDivisionError /\ e <> OverflowError /\
                     opt_lr w' = int_truediv (lr a * len x) (bptt a)) w)
    as Hwp.
  { destruct w as [lr0 m0 h0 bl be tls vls ck csv txt tr sg].
    cbn [sigint] in Hsig. subst sg.
    unfold train_batch, py_int_truediv. rewrite Hvar.
    apply Z.eqb_neq in Hb. rewrite Hb. cbn [fst snd].
    destruct (int_truediv_overflows (lr a * len x) (bptt a)).
    - destruct j as [|j]; [lia|].
      repeat (first
                [ apply wp_tick_exact; cbv [sigint]
                | wp_step ]; wsimpl).
      split; reflexivity.
    - destruct j as [|[|[|[|[|[|[|[|[|[|[|j]]]]]]]]]]]; try lia.
      all: repeat (first
                     [ apply wp_tick_exact; cbv [sigint]
                     | wp_step ]; wsimpl).
      all: repeat match goal with
             | Hr : py_last _ = Raise _ |- _ =>
                 apply py_last_raise in Hr; subst
             end.
      all: split; [discriminate | split; [discriminate | reflexivity]]. }
  apply wp_unfold in Hwp.
  destruct (train_batch a (x, y) w) as [[v|e] w']; [destruct Hwp|].
  cbn [fst snd].
  destruct (int_truediv_overflows (lr a * len x) (bptt a)).
  - destruct Hwp as [-> Hlr]. auto.
  - destruct Hwp as (He & Ho & Hlr). eauto.
Qed.

End WindowCutShort.

(** A Ctrl-C at the fourth interruptible point of a window of four rows. *)
Lemma window_cut_short_leaves_rate_scaled_witness :
  opt_lr (snd (train_batch (Demo.demo_args true) ([1; 2; 3; 4], [2; 3; 4; 5])
                           (Demo.demo_world true (Some 3%nat))))
  = Demo.Fin 60.
Proof.
  assert ((1 <= 3 <= 10)%nat) as Hj by lia.
  exact (proj2 (window_cut_short_leaves_rate_scaled
                  (Demo.demo_args true) [1; 2; 3; 4] [2; 3; 4; 5]
                  (Demo.demo_world true (Some 3%nat)) 3 eq_refl
                  ltac:(discriminate) eq_refl Hj)).
Defined.

(** ** What makes the epoch loop raise *)

Section FaultFacts.
Context {F Row Out Hidden Mdl : Type}.
Context `{FloatOps F} `{Torch F Row Out Hidden Mdl}.
Variable a : args F.

Lemma py_last_raise_nil {A} (l : list A) e :
  py_last l = Raise e -> last l = None.
Proof. unfold py_last. destruct (last l); [discriminate | reflexivity]. Qed.

Lemma train_batch_fault_wp (batch : list Row * list Row)
      (w0 : world F Row Mdl) :
  wp (train_batch a batch) (fun _ _ => True)
     (fun e _ => window_fault (Mdl:=Mdl) a (fst batch) e) w0.
Proof.
  destruct w0 as [lr0 m0 h0 bl be tls vls ck csv txt tr sg].
  destruct batch as [x y].
  unfold train_batch.
  wp_run.
  all: try exact I.
  all: try solve [left; reflexivity].
  all: try solve [right; left; split; [reflexivity|]; split;
                  [assumption | apply Z.eqb_eq; assumption]].
  all: try solve [right; right; left; split; [reflexivity|]; split;
                  [assumption|]; split;
                  [apply Z.eqb_neq; assumption | assumption]].
  all: match goal with
       | Hr : py_last _ = Raise ?e |- _ =>
           pose proof (py_last_raise _ _ Hr); subst e;
           apply py_last_raise_nil, last_None in Hr
       end.
  all: right; right; right; split; [reflexivity|]; exists m0, x;
    cbn [fst]; auto.
Qed.

Lemma window_fault_loop (train_loader valid_loader : list (list Row * list Row))
      (b : list Row * list Row) (e : exn) :
  In b train_loader -> window_fault (Mdl:=Mdl) a (fst b) e ->
  loop_fault (Mdl:=Mdl) a train_loader valid_loader e.
Proof.
  intros Hin [-> | [(-> & Hv & Hz) | [(-> & Hv & Hz & Ho) | (-> & Hno)]]].
  - left. reflexivity.
  - right. left. split; [reflexivity|]. right. right. left. auto.
  - right. right. left. split_all; auto. exists b. auto.
  - right. right. right. auto.
Qed.

Lemma train_pass_fault_wp
      (train_loader valid_loader : list (list Row * list Row))
      (w0 : world F Row Mdl) :
  wp (train_pass a train_loader) (fun _ _ => True)
     (fun e _ => loop_fault (Mdl:=Mdl) a train_loader valid_loader e) w0.
Proof.
  destruct w0 as [lr0 m0 h0 bl be tls vls ck csv txt tr sg].
  unfold train_pass.
  wp_run.
  all: try exact I.
  all: try solve [left; reflexivity].
  eapply wp_mono;
    [ apply (wp_for_acc _ (fun l _ _ => forall b, In b l -> In b train_loader)
                        (fun e _ => loop_fault (Mdl:=Mdl) a train_loader
                                               valid_loader e));
      [auto|]
    | | ].
  - intros x l' acc w Hl. apply wp_bind.
    eapply wp_mono; [apply train_batch_fault_wp | |].
    + intros v w1 _. apply wp_ret. intros b Hb. apply Hl. right. exact Hb.
    + intros e w1 He. eapply window_fault_loop; [|exact He].
      apply Hl. left. reflexivity.
  - intros acc' [lr1 m1 h1 bl1 be1 tls1 vls1 ck1 csv1 txt1 tr1 sg1] _.
    wp_run.
    all: try exact I.
    all: try solve [left; reflexivity].
    right. left. split; [reflexivity|]. left. apply len_zero; assumption.
  - intros e w' He. exact He.
Qed.

(** The causes of an exception of the epoch loop. *)
Lemma epoch_loop_fault_wp
      (train_loader valid_loader : list (list Row * list Row))
      (w : world F Row Mdl) :
  of_int_overflows (lr a) = false ->
  wp (epoch_loop a train_loader valid_loader) (fun _ _ => True)
     (fun e _ => loop_fault (Mdl:=Mdl) a train_loader valid_loader e) w.
Proof.
  intros Hlr.
  assert (forall e0 w0,
             wp (epoch a train_loader valid_loader e0) (fun _ _ => True)
                (fun e _ => loop_fault (Mdl:=Mdl) a train_loader valid_loader e)
                w0) as Hepoch.
  { intros e0 w0. unfold epoch. apply wp_bind.
    eapply wp_mono;
      [apply (train_pass_fault_wp train_loader valid_loader) | | auto].
    intros tv w1 _. apply wp_bind.
    eapply wp_mono; [apply eval_pass_wp | |].
    - intros v [lr2 m2 h2 bl2 be2 tls2 vls2 ck2 csv2 txt2 tr2 sg2] _.
      wp_run.
      all: try exact I.
      all: try solve [left; reflexivity].
      all: try solve [exfalso; congruence].
      right. left. split; [reflexivity|]. right. right. right.
      split; [apply negb_true_iff|]; assumption.
    - intros e' w2 (_ & _ & _ & _ & [-> | [-> ->]]).
      + left. reflexivity.
      + right. left. split; [reflexivity|]. right. left. reflexivity. }
  unfold epoch_loop.
  apply (wp_for_each (epoch a train_loader valid_loader)
                     (fun _ _ => True)
                     (fun e _ => loop_fault (Mdl:=Mdl) a train_loader
                                            valid_loader e)
                     (py_range 1 (epochs a + 1)) w I).
  intros x l' w0 _. eapply wp_mono; [apply Hepoch | auto | auto].
Qed.

(** X3.  For an [args.lr] that converts to a float, the statements of the
    epoch loop raise nothing but KeyboardInterrupt, which needs a Ctrl-C;
    ZeroDivisionError, which needs an empty training or validation loader
    (lines 140, 156), a zero [bptt] in variable mode (line 116) or a zero
    anneal factor in fixed mode (line 168); OverflowError, which needs, in
    variable mode, a training window whose scaled rate is too large for a
    float (line 116); and IndexError, which needs a model that returns no
    layer output (lines 127, 128).  The calls into torch (the optimizer
    taking [args.lr] as its rate among them) and the writing of the
    checkpoint are taken to return. *)
Theorem epoch_loop_faults
        (train_loader valid_loader : list (list Row * list Row))
        (w : world F Row Mdl) (e : exn) :
  of_int_overflows (lr a) = false ->
  fst (epoch_loop a train_loader valid_loader w) = Raise e ->
  loop_fault (Mdl:=Mdl) a train_loader valid_loader e /\
  (e = KeyboardInterrupt -> sigint w <> None).
Proof.
  intros Hlr Hraise.
  pose proof (epoch_loop_fault_wp train_loader valid_loader w Hlr) as Hfault.
  pose proof (epochs_wp a train_loader valid_loader
                        (py_range 1 (epochs a + 1)) w) as Hsig.
  apply wp_unfold in Hsig, Hfault.
  fold (epoch_loop a train_loader valid_loader) in Hsig.
  destruct (epoch_loop a train_loader valid_loader w) as [[u|e'] w'];
    [discriminate|].
  cbn [fst] in Hraise. injection Hraise as ->.
  split; [exact Hfault|].
  destruct Hsig as (_ & _ & [Hnone _] & _).
  intros -> Hn. destruct (Hnone Hn) as [_ Hne]. congruence.
Qed.

End FaultFacts.

(** A run without training windows stops at line 140; and a run in
    variable mode whose rate, [2 ^ 1023], converts to a float stops at
    line 116 on a window of four rows with a base length of one. *)
Lemma epoch_loop_faults_witness :
  (fst (epoch_loop (Demo.demo_args false) [] Demo.demo_valid
                   (Demo.demo_world false None)) = Raise ZeroDivisionError /\
   loop_fault (Mdl:=Z) (Demo.demo_args false) [] Demo.demo_valid
              ZeroDivisionError) /\
  (fst (epoch_loop Demo.big_rate_args Demo.demo_long Demo.demo_valid
                   (init_world Demo.big_rate_args 0 None))
   = Raise OverflowError /\
   loop_fault (Mdl:=Z) Demo.big_rate_args Demo.demo_long Demo.demo_valid
              OverflowError).
Proof.
  assert (fst (epoch_loop (Demo.demo_args false) [] Demo.demo_valid
                          (Demo.demo_world false None))
          = Raise ZeroDivisionError) as Hr by (vm_compute; reflexivity).
  assert (fst (epoch_loop Demo.big_rate_args Demo.demo_long Demo.demo_valid
                          (init_world Demo.big_rate_args 0 None))
          = Raise OverflowError) as Ho by (vm_compute; reflexivity).
  assert (of_int_overflows (lr Demo.big_rate_args) = false) as Hfit
      by (vm_compute; reflexivity).
  split; (split; [assumption|]).
  - exact (proj1 (epoch_loop_faults (Demo.demo_args false) [] Demo.demo_valid
                                    (Demo.demo_world false None)
                                    ZeroDivisionError eq_refl Hr)).
  - exact (proj1 (epoch_loop_faults Demo.big_rate_args Demo.demo_long
                                    Demo.demo_valid
                                    (init_world Demo.big_rate_args 0 None)
                                    OverflowError Hfit Ho)).
Defined.

(** ** Whole runs *)

Section RunFacts.
Context {F Row Out Hidden Mdl : Type}.
Context `{FloatOps F} `{Torch F Row Out Hidden Mdl}.
Variable a : args F.
Variables train_loader valid_loader test_loader : list (list Row * list Row).

(** X4.  A run whose three loaders are not empty, whose [args.lr]
    converts to a float, whose [bptt] is not zero and whose scaled rates
    all fit in a float (in variable mode), whose anneal factor is not
    zero (in fixed mode), whose model always returns at least one layer
    output, and that no Ctrl-C interrupts, ends normally.  Both histories
    then have one entry per epoch, the CSV file holds them row by row, and
    the summary file holds the running best of the validation history,
    the best epoch, and the mean of the criterion over the test windows,
    computed from the model as the last epoch left it.  The calls into
    torch (the optimizer taking [args.lr] as its rate among them) and the
    writing of the files are taken to return. *)
Theorem run_completes_and_reports (m : Mdl) :
  train_loader <> [] -> valid_loader <> [] -> test_loader <> [] ->
  of_int_overflows (lr a) = false ->
  (use_var_bptt a = true ->
   bptt a <> 0 /\
   Forall (fun b => rate_overflows a (fst b) = false) train_loader) ->
  (use_var_bptt a = false -> fis_zero (anneal_factor a) = false) ->
  ~ no_layer_output (Mdl:=Mdl) ->
  let w0 := init_world a m None in
  let w1 := snd (epoch_loop a train_loader valid_loader w0) in
  let r := script a train_loader valid_loader test_loader w0 in
  fst r = Ok tt /\
  length (train_losses (snd r)) = Z.to_nat (epochs a) /\
  length (valid_losses (snd r)) = Z.to_nat (epochs a) /\
  csv_file (snd r)
  = Some (combine (train_losses (snd r)) (valid_losses (snd r))) /\
  txt_file (snd r)
  = Some (running_best (valid_losses (snd r)), best_epoch w1,
          mean_of (snd (eval_run (eval_start (mdl w1)) test_loader))).
Proof.
  intros Htl Hvl Hsl Hlr Hb Han Hlay w0 w1 r. subst r w1.
  rewrite script_cases.
  pose proof (epoch_loop_fault_wp a train_loader valid_loader w0 Hlr)
    as Hfault.
  apply wp_unfold in Hfault.
  pose proof (epochs_wp a train_loader valid_loader
                        (py_range 1 (epochs a + 1)) w0) as Hloop.
  apply wp_unfold in Hloop.
  fold (epoch_loop a train_loader valid_loader) in Hloop.
  destruct (epoch_loop a train_loader valid_loader w0) as [[u|e] w1].
  - clear Hfault.
    destruct Hloop as (Hlt & Hlv & _ & _ & [Hsig _] & _ & Hbest).
    rewrite py_range_length in Hlt, Hlv. simpl in Hlt, Hlv.
    destruct (Hsig eq_refl) as [Hnone _].
    specialize (Hbest eq_refl).
    pose proof (after_loop_wp test_loader w1) as Hpost.
    apply wp_unfold in Hpost.
    destruct (after_loop test_loader w1) as [[[]|e] w2]; cbn [fst snd].
    + destruct Hpost as (_ & _ & Hcsv & Htxt & _ & _ & Htl2 & Hvl2 & _).
      rewrite Htl2, Hvl2, Hcsv, Htxt, Hbest.
      split_all; try reflexivity; lia.
    + exfalso.
      destruct Hpost as (_ & _ & _ & _ & _ & _ & _ & _ & Hval & Hcause).
      destruct (Hcause Hnone) as [[_ Hnil] | ->]; [contradiction|].
      destruct (Hval eq_refl) as (_ & Hne & _). lia.
  - exfalso. destruct Hloop as (_ & _ & [Hnone _] & _).
    destruct (Hnone eq_refl) as [_ Hki].
    destruct Hfault
      as [-> | [(_ & Hz) | [(_ & Hv & _ & b & Hin & Ho) | (_ & Hno)]]].
    + apply Hki; reflexivity.
    + destruct Hz as [Hz | [Hz | [[Hv Hz] | [Hv Hz]]]]; try contradiction.
      * destruct (Hb Hv) as [Hnz _]. contradiction.
      * rewrite (Han Hv) in Hz. discriminate.
    + destruct (Hb Hv) as [_ Hall].
      rewrite List.Forall_forall in Hall. rewrite (Hall b Hin) in Ho.
      discriminate.
    + exact (Hlay Hno).
Qed.

(** X5.  In every run the summary file is written exactly when the script
    ends normally, and then the CSV file is written too: a run that stops
    on an exception, caught or not, leaves no summary. *)
Theorem summary_written_iff_normal_end (m : Mdl) (sig : option nat) :
  let r := script a train_loader valid_loader test_loader
                  (init_world a m sig) in
  (txt_file (snd r) <> None <-> fst r = Ok tt) /\
  (fst r = Ok tt -> csv_file (snd r) <> None).
Proof.
  intros r. subst r. rewrite script_cases.
  pose proof (epochs_wp a train_loader valid_loader
                        (py_range 1 (epochs a + 1)) (init_world a m sig))
    as Hloop.
  apply wp_unfold in Hloop.
  fold (epoch_loop a train_loader valid_loader) in Hloop.
  assert (forall w1 : world F Row Mdl,
             txt_file w1 = None ->
             let r := after_loop test_loader w1 in
             (txt_file (snd r) <> None <-> fst r = Ok tt) /\
             (fst r = Ok tt -> csv_file (snd r) <> None)) as Hafter.
  { intros w1 Hnone r. subst r.
    pose proof (after_loop_wp test_loader w1) as Hpost.
    apply wp_unfold in Hpost.
    destruct (after_loop test_loader w1) as [[[]|e] w2]; cbn [fst snd].
    - destruct Hpost as (_ & _ & Hcsv & Htxt & _).
      rewrite Hcsv, Htxt. split; [split|]; intros; congruence.
    - destruct Hpost as (Htxt & _). rewrite Htxt, Hnone.
      split; [split|]; intros; congruence. }
  destruct (epoch_loop a train_loader valid_loader (init_world a m sig))
    as [[u|e] w1].
  - destruct Hloop as (_ & _ & _ & Htxt & _). apply Hafter. exact Htxt.
  - destruct Hloop as (_ & Htxt & _). simpl in Htxt.
    destruct e; try (apply Hafter; exact Htxt);
      cbn [fst snd]; rewrite Htxt;
      (split; [split|]; intros; congruence).
Qed.

(** X6.  With [--epochs] at most zero nothing is trained: the script goes
    to the test pass with the model as constructed, both histories stay
    empty, the CSV file has no row, and the summary reports [np.inf] as
    best loss and 0 as best epoch. *)
Theorem no_epoch_no_training (m : Mdl) :
  epochs a <= 0 -> test_loader <> [] ->
  let r := script a train_loader valid_loader test_loader
                  (init_world a m None) in
  fst r = Ok tt /\
  trace (snd r) = EModelEval :: EResetHidden :: eval_forwards test_loader /\
  train_losses (snd r) = [] /\ valid_losses (snd r) = [] /\
  ckpt_file (snd r) = None /\
  csv_file (snd r) = Some [] /\
  txt_file (snd r)
  = Some (finf, 0, mean_of (snd (eval_run (eval_start m) test_loader))).
Proof.
  intros He Hsl r. subst r. rewrite script_cases.
  unfold epoch_loop.
  assert (py_range 1 (epochs a + 1) = []) as ->.
  { unfold py_range. replace (Z.to_nat (epochs a + 1 - 1)) with 0%nat by lia.
    reflexivity. }
  cbn [for_each ret].
  pose proof (after_loop_wp test_loader (init_world a m None)) as Hpost.
  apply wp_unfold in Hpost.
  destruct (after_loop test_loader (init_world a m None))
    as [[[]|e] w2]; cbn [fst snd].
  - destruct Hpost as (_ & _ & Hcsv & Htxt & _ & Htr & Htl & Hvl & Hck & _).
    simpl in *. auto 10.
  - exfalso.
    destruct Hpost as (_ & _ & _ & _ & _ & _ & _ & _ & Hval & Hcause).
    destruct (Hcause eq_refl) as [[_ Hnil] | ->]; [contradiction|].
    destruct (Hval eq_refl) as (_ & Hne & _). simpl in Hne. congruence.
Qed.

End RunFacts.

(** The two epochs of the example run, in variable-length mode. *)
Lemma run_completes_and_reports_witness :
  length (train_losses
            (snd (script (Demo.demo_args true) Demo.demo_train
                         Demo.demo_valid Demo.demo_test
                         (Demo.demo_world true None)))) = 2%nat.
Proof.
  refine (proj1 (proj2 (run_completes_and_reports
                          (Demo.demo_args true) Demo.demo_train
                          Demo.demo_valid Demo.demo_test 0
                          _ _ _ _ _ _ _))).
  - discriminate.
  - discriminate.
  - discriminate.
  - reflexivity.
  - intros _. split; [discriminate|]. repeat constructor.
  - discriminate.
  - intros (m & x & [Hd | Hr]); discriminate.
Defined.

(** The example run with [--epochs 0]. *)
Lemma no_epoch_no_training_witness :
  csv_file
    (snd (script {| bs := 1; eval_bs := 1; bptt := 2; use_var_bptt := false;
                    emb_dim := 400; hidden_dim := 1150; num_layers := 3;
                    lr := 30; anneal_factor := Demo.Fin 4;
                    tie_weights := true; epochs := 0;
                    clip := Demo.Fin (1 # 4); alpha := Demo.Fin 2;
                    beta := Demo.Fin 1 |}
                 Demo.demo_train Demo.demo_valid Demo.demo_test
                 (init_world (Demo.demo_args false) 0 None)))
  = Some [].
Proof.
  refine (proj1 (proj2 (proj2 (proj2 (proj2 (proj2
            (no_epoch_no_training
               {| bs := 1; eval_bs := 1; bptt := 2; use_var_bptt := false;
                  emb_dim := 400; hidden_dim := 1150; num_layers := 3;
                  lr := 30; anneal_factor := Demo.Fin 4;
                  tie_weights := true; epochs := 0;
                  clip := Demo.Fin (1 # 4); alpha := Demo.Fin 2;
                  beta := Demo.Fin 1 |}
               Demo.demo_train Demo.demo_valid Demo.demo_test 0 _ _))))))).
  - discriminate.
  - discriminate.
Defined.

(** ** The schedule of the rate and the checkpoints *)

Section Schedule.
Context {F Row Out Hidden Mdl : Type}.
Context `{FloatOps F} `{Torch F Row Out Hidden Mdl}.
Variable a : args F.
Variables train_loader valid_loader : list (list Row * list Row).

Lemma checkpoint_epochs_filter (evs : list (event F Row)) :
  checkpoint_epochs evs = checkpoint_epochs (List.filter is_checkpoint evs).
Proof.
  unfold checkpoint_epochs.
  induction evs as [|e evs IH]; [reflexivity|].
  destruct e; simpl; rewrite ?IH; reflexivity.
Qed.

Lemma checkpoint_epochs_app (evs1 evs2 : list (event F Row)) :
  checkpoint_epochs (evs1 ++ evs2) =
  checkpoint_epochs evs1 ++ checkpoint_epochs evs2.
Proof. apply flat_map_app. Qed.

Lemma epochs_schedule_wp (es : list Z) :
  forall w0 : world F Row Mdl,
  wp (for_each (epoch a train_loader valid_loader) es)
     (fun _ w' =>
        exists evs,
          trace w' = trace w0 ++ evs /\
          sublist (checkpoint_epochs evs) es /\
          (use_var_bptt a = false ->
           opt_lr w' = Nat.iter (length es - length (checkpoint_epochs evs))
                                (anneal_once a) (opt_lr w0)) /\
          (use_var_bptt a = true -> opt_lr w0 = of_int (lr a) ->
           opt_lr w' = of_int (lr a)) /\
          match last (checkpoint_epochs evs) with
          | Some n => best_epoch w' = n /\ ckpt_file w' <> None
          | None => best_epoch w' = best_epoch w0 /\
                    ckpt_file w' = ckpt_file w0
          end)
     (fun _ _ => True) w0.
Proof.
  induction es as [|e es IH]; intros w0.
  - apply wp_ret. exists []. rewrite app_nil_r. simpl.
    split_all; auto; constructor.
  - simpl for_each. apply wp_bind.
    eapply wp_mono; [apply epoch_wp | | auto].
    intros _ w1 (tv & v & evs1 & _ & _ & _ & _ & _ & Htr & _ & _ & Hck
                 & Hvar & Hbest).
    eapply wp_mono; [apply IH | | auto].
    intros _ w2 (evs2 & Htr2 & Hsub & Hfix & Hvar2 & Hlast).
    exists (evs1 ++ evs2).
    split; [rewrite Htr2, Htr, <- app_assoc; reflexivity|].
    rewrite checkpoint_epochs_app, (checkpoint_epochs_filter evs1), Hck.
    pose proof (sublist_length _ _ Hsub) as Hlen.
    destruct (flt v (best_loss w0)); cbn [checkpoint_epochs flat_map app].
    + destruct Hbest as (_ & Hbe & Hcf & Hlr).
      split; [apply sublist_skip; exact Hsub|].
      split.
      { intros Hv. rewrite (Hfix Hv), (Hlr Hv).
        f_equal; cbn [length]; lia. }
      split; [intros Hv Hb; apply Hvar2; auto|].
      destruct (checkpoint_epochs evs2) as [|n saved] eqn:Hs.
      * cbn [last] in *. destruct Hlast as [Hb2 Hc2].
        split; [congruence|]. rewrite Hc2, Hcf. discriminate.
      * change (last (e :: n :: saved)) with (last (n :: saved)).
        destruct (last (n :: saved)) eqn:Hl; [exact Hlast|].
        apply last_None in Hl. discriminate.
    + destruct Hbest as (_ & Hbe & Hcf & Hlr).
      split; [apply sublist_cons; exact Hsub|].
      split.
      { intros Hv. destruct (Hlr Hv) as [_ Hlr1].
        rewrite (Hfix Hv), Hlr1.
        replace (length (e :: es) - length (checkpoint_epochs evs2))%nat
          with (length es - length (checkpoint_epochs evs2) + 1)%nat
          by (cbn [length]; lia).
        rewrite Nat.iter_add. reflexivity. }
      split; [intros Hv Hb; apply Hvar2; auto|].
      destruct (last (checkpoint_epochs evs2)); [exact Hlast|].
      destruct Hlast as [Hb2 Hc2]. split; congruence.
Qed.

(** X7.  When the epoch loop ends normally the checkpoints were saved at
    some of its epochs, in increasing order.  In fixed-length mode the
    rate is then the initial rate divided by the anneal factor once for
    each epoch that saved no checkpoint; in variable-length mode it is
    the initial rate: the rate is never annealed there. *)
Theorem rate_annealed_once_per_epoch_without_checkpoint
        (m : Mdl) (sig : option nat) :
  fst (epoch_loop a train_loader valid_loader (init_world a m sig))
  = Ok tt ->
  let w1 := snd (epoch_loop a train_loader valid_loader
                            (init_world a m sig)) in
  let saved := checkpoint_epochs (trace w1) in
  sublist saved (py_range 1 (epochs a + 1)) /\
  opt_lr w1 =
    (if use_var_bptt a then of_int (lr a)
     else Nat.iter (Z.to_nat (epochs a) - length saved)
                   (anneal_once a) (of_int (lr a))).
Proof.
  intros Hok w1 saved. subst saved w1.
  pose proof (epochs_schedule_wp (py_range 1 (epochs a + 1))
                                 (init_world a m sig)) as Hwp.
  apply wp_unfold in Hwp.
  fold (epoch_loop a train_loader valid_loader) in Hwp.
  destruct (epoch_loop a train_loader valid_loader (init_world a m sig))
    as [[u|e] w1]; [|discriminate].
  cbn [fst snd] in *.
  destruct Hwp as (evs & Htr & Hsub & Hfix & Hvar & _).
  simpl in Htr. rewrite Htr. split; [exact Hsub|].
  rewrite py_range_length in Hfix.
  replace (epochs a + 1 - 1) with (epochs a) in Hfix by lia.
  destruct (use_var_bptt a); [apply Hvar | apply Hfix]; reflexivity.
Qed.

(** X8.  When the epoch loop ends normally the best epoch is the epoch of
    the last checkpoint saved (0 when none was), and the checkpoint file
    exists exactly when a checkpoint was saved: the summary names the
    epoch whose model is in the file. *)
Theorem best_epoch_is_last_checkpoint (m : Mdl) (sig : option nat) :
  fst (epoch_loop a train_loader valid_loader (init_world a m sig))
  = Ok tt ->
  let w1 := snd (epoch_loop a train_loader valid_loader
                            (init_world a m sig)) in
  let saved := checkpoint_epochs (trace w1) in
  best_epoch w1 = default 0 (last saved) /\
  (ckpt_file w1 = None <-> saved = []).
Proof.
  intros Hok w1 saved. subst saved w1.
  pose proof (epochs_schedule_wp (py_range 1 (epochs a + 1))
                                 (init_world a m sig)) as Hwp.
  apply wp_unfold in Hwp.
  fold (epoch_loop a train_loader valid_loader) in Hwp.
  destruct (epoch_loop a train_loader valid_loader (init_world a m sig))
    as [[u|e] w1]; [|discriminate].
  cbn [fst snd] in *.
  destruct Hwp as (evs & Htr & _ & _ & _ & Hlast).
  simpl in Htr. rewrite Htr.
  destruct (last (checkpoint_epochs evs)) as [n|] eqn:Hl.
  - destruct Hlast as [Hbe Hck]. split; [exact Hbe|].
    split; [intros Hn; contradiction|].
    intros Hs. rewrite Hs in Hl. discriminate.
  - destruct Hlast as [Hbe Hck]. simpl in Hbe, Hck.
    split; [exact Hbe|]. split; [intros _; apply last_None, Hl | auto].
Qed.

End Schedule.

(** The example run improves at both epochs: the rate is never divided. *)
Lemma rate_annealed_once_per_epoch_without_checkpoint_witness :
  opt_lr (snd (epoch_loop (Demo.demo_args false) Demo.demo_train
                          Demo.demo_valid (Demo.demo_world false None)))
  = Nat.iter
      (2 - length (checkpoint_epochs
                     (trace (snd (epoch_loop (Demo.demo_args false)
                                             Demo.demo_train Demo.demo_valid
                                             (Demo.demo_world false None))))))
      (anneal_once (Demo.demo_args false)) (Demo.Fin 30).
Proof.
  assert (fst (epoch_loop (Demo.demo_args false) Demo.demo_train
                          Demo.demo_valid (Demo.demo_world false None))
          = Ok tt) as Hok by (vm_compute; reflexivity).
  exact (proj2 (rate_annealed_once_per_epoch_without_checkpoint
                  (Demo.demo_args false) Demo.demo_train Demo.demo_valid
                  0 None Hok)).
Defined.

(** In the example run the last checkpoint is the one of epoch 2. *)
Lemma best_epoch_is_last_checkpoint_witness :
  best_epoch (snd (epoch_loop (Demo.demo_args false) Demo.demo_train
                              Demo.demo_valid (Demo.demo_world false None)))
  = default 0
      (last (checkpoint_epochs
               (trace (snd (epoch_loop (Demo.demo_args false)
                                       Demo.demo_train Demo.demo_valid
                                       (Demo.demo_world false None)))))).
Proof.
  assert (fst (epoch_loop (Demo.demo_args false) Demo.demo_train
                          Demo.demo_valid (Demo.demo_world false None))
          = Ok tt) as Hok by (vm_compute; reflexivity).
  exact (proj1 (best_epoch_is_last_checkpoint
                  (Demo.demo_args false) Demo.demo_train Demo.demo_valid
                  0 None Hok)).
Defined.

(** ** The corpus cache *)

Section CacheFacts.
Context {C : Type}.
Variable md5_hex : string -> string.
Variable Corpus_new : string -> string -> string -> string -> result C.

(** X9.  The cache is keyed by the path alone.  Once a run has obtained a
    corpus for a path, every later run with that path gets the same
    corpus and leaves the files as they are, whatever file names it is
    given: the named files are not read again.  The first run wrote no
    file other than the cache file. *)
Theorem cache_ignores_file_names
        (path train valid test : string) (fs fs' : gmap string C) (c : C) :
  load_or_produce md5_hex Corpus_new path train valid test fs = (Ok c, fs') ->
  (forall train' valid' test',
     load_or_produce md5_hex Corpus_new path train' valid' test' fs'
     = (Ok c, fs')) /\
  (forall f, f <> cache_file md5_hex path -> fs' !! f = fs !! f).
Proof.
  unfold load_or_produce. intros Hrun.
  destruct (fs !! cache_file md5_hex path) as [c0|] eqn:Hfs.
  - injection Hrun as <- <-. split; [|reflexivity].
    intros. rewrite Hfs. reflexivity.
  - destruct (Corpus_new path train valid test) as [c0|e]; [|discriminate].
    injection Hrun as <- <-. split.
    + intros. rewrite lookup_insert_eq. reflexivity.
    + intros f Hf. apply lookup_insert_ne. congruence.
Qed.

End CacheFacts.

(** A first run names [train.txt]; a second run that names [other.txt]
    still gets the corpus of [train.txt]. *)
Lemma cache_ignores_file_names_witness :
  fst (load_or_produce Demo2.digest Demo2.corpus_of
         "data" "other.txt" "valid.txt" "test.txt"
         (snd (load_or_produce Demo2.digest Demo2.corpus_of
                 "data" "train.txt" "valid.txt" "test.txt" ∅)))
  = Ok "train.txt".
Proof.
  assert (load_or_produce Demo2.digest Demo2.corpus_of
            "data" "train.txt" "valid.txt" "test.txt" ∅
          = (Ok "train.txt",
             snd (load_or_produce Demo2.digest Demo2.corpus_of
                    "data" "train.txt" "valid.txt" "test.txt" ∅)))
    as Hrun by reflexivity.
  exact (f_equal fst
           (proj1 (cache_ignores_file_names Demo2.digest Demo2.corpus_of
                     "data" "train.txt" "valid.txt" "test.txt" ∅ _ _ Hrun)
                  "other.txt" "valid.txt" "test.txt")).
Defined.

(** ** Evaluation passes *)

Section EvalFacts.
Context {F Row Out Hidden Mdl : Type}.
Context `{FloatOps F} `{Torch F Row Out Hidden Mdl}.

(** X10.  A validation or test pass, however it ends, only evaluates: the
    calls it makes are [model.eval()], [model.reset_hidden()] and forward
    calls without gradient, and it leaves the rate, the best loss and
    epoch, the two histories and the three files as they were.  When it
    returns, the loader is not empty and the value is the mean of the
    criterion over its windows, each computed by the model as the window
    before left it; it raises only on a Ctrl-C or, with ZeroDivisionError
    at the division by the number of windows, on an empty loader. *)
Theorem eval_pass_only_evaluates
        (loader : list (list Row * list Row)) (w : world F Row Mdl) :
  let r := eval_pass loader w in
  books_eq w (snd r) /\
  opt_lr (snd r) = opt_lr w /\
  (exists evs, trace (snd r) = trace w ++ evs /\
               forallb is_eval_event evs = true) /\
  match fst r with
  | Ok v =>
      loader <> [] /\
      v = mean_of (snd (eval_run (eval_start (mdl w)) loader)) /\
      mdl (snd r) = fst (eval_run (eval_start (mdl w)) loader)
  | Raise e =>
      (e = KeyboardInterrupt /\ sigint w <> None) \/
      (e = ZeroDivisionError /\ loader = [])
  end.
Proof.
  intros r. subst r.
  pose proof (eval_pass_wp loader w) as Hwp. apply wp_unfold in Hwp.
  destruct (eval_pass loader w) as [[v|e] w']; cbn [fst snd].
  - destruct Hwp as (Hne & Hv & Hm & Htr & Hlr & Hb & _).
    split_all; auto.
    exists (EModelEval :: EResetHidden :: eval_forwards loader).
    split; [exact Htr|]. cbn [forallb is_eval_event andb].
    apply no_grad_forward_eval, eval_forwards_ok.
  - destruct Hwp as (Hb & Hlr & (evs & Htr & _ & Hev) & [Hsig _] & Hc).
    split_all; eauto.
    destruct Hc as [-> | Hc]; [left | right; exact Hc].
    split; [reflexivity|]. intros Hn. destruct (Hsig Hn) as [_ Hk].
    congruence.
Qed.

End EvalFacts.
